(** * A shallow embedding of the Telnet client in [connection.go]

    The Go package wraps a [net.Conn] in a [Connection] that strips Telnet
    control sequences from the inbound byte stream and answers option
    negotiation.  Bytes are integers (a Go [byte] is a [Z] in [0, 256)),
    slices are lists, the option table (a Go map) is a [gmap], and the
    transport together with the process environment is an explicit
    [World] threaded through every function that touches it.  A Go
    run-time panic (indexing a slice out of range) is a result of its own. *)

From Stdlib Require Import ZArith Lia String.
From stdpp Require Import base option list gmap.

Open Scope Z_scope.

(** ** Constants *)

Definition bufferSize : nat := 1024.

(** [telnetCommand], RFC 854. *)
Definition SE   : Z := 240.
Definition SB   : Z := 250.
Definition WILL : Z := 251.
Definition WONT : Z := 252.
Definition DO   : Z := 253.
Definition DONT : Z := 254.
Definition IAC  : Z := 255.

(** [telnetOptionCode]. *)
Definition BinaryTransmission       : Z := 0.
Definition Echo                     : Z := 1.
Definition SuppressGoAhead          : Z := 3.
Definition Status                   : Z := 5.
Definition TerminalType             : Z := 24.
Definition NegotiateAboutWindowSize : Z := 31.
Definition TerminalSpeed            : Z := 32.
Definition RemoteFlowControl        : Z := 33.

(** [telnetOperation]. *)
Definition NONE : Z := 255.
Definition IS   : Z := 0.
Definition SEND : Z := 1.

(** ** Data model *)

Inductive streamState : Type :=
  | stateData
  | stateInIAC
  | stateInSB
  | stateEscIAC
  | stateNotReady.

(** The values of Go's [error] interface that this code can see: the
    package's own "telnet connection is not ready", and whatever the
    transport reports. *)
Inductive error : Type :=
  | ErrNotReady
  | ErrEOF
  | ErrTransport (msg : string).

(** The handlers the package defines for [telnetOptionHandler] (the
    function type is private to the package, and so are its three values). *)
Inductive telnetOptionHandler : Type :=
  | HTerminalType
  | HNegotiateAboutWindowSize
  | HTerminalSpeed.

Record telnetOption : Type := {
  weWill    : bool;
  peerDo    : bool;
  sbHandler : option telnetOptionHandler;   (* [None] is Go's nil *)
  doHandler : option telnetOptionHandler
}.

(** The [Connection] struct without its [conn] field: the transport is
    shared by every copy of the struct and lives in the [World]. *)
Record Connection : Type := {
  options : gmap Z telnetOption;
  state   : streamState;
  winSize : list Z
}.

Definition with_state (s : streamState) (p : Connection) : Connection :=
  {| options := options p; state := s; winSize := winSize p |}.

Definition with_winSize (ws : list Z) (p : Connection) : Connection :=
  {| options := options p; state := state p; winSize := ws |}.

Definition with_options (m : gmap Z telnetOption) (p : Connection) : Connection :=
  {| options := m; state := state p; winSize := winSize p |}.

(** ** The world outside the package

    [written] records the argument of every [conn.Write] call, in order;
    [wscript] and [incoming] give the results the transport will return for
    the coming [conn.Write] and [conn.Read] calls.  [handled] and
    [dispatched] are traces: the handlers invoked through the option table
    and the buffers passed to [negotiateOption]. *)
Record World : Type := {
  written    : list (list Z);
  wscript    : list (Z * option error);
  incoming   : list (list Z * option error);
  closed     : bool;
  close_err  : option error;
  TERM       : option (list Z);
  handled    : list (telnetOptionHandler * list Z);
  dispatched : list (list Z)
}.

Definition conn_Write (w : World) (b : list Z) : World * (Z * option error) :=
  ({| written := written w ++ [b]; wscript := tail (wscript w);
      incoming := incoming w; closed := closed w; close_err := close_err w;
      TERM := TERM w; handled := handled w; dispatched := dispatched w |},
   match wscript w with
   | [] => (Z.of_nat (length b), None)
   | r :: _ => r
   end).

Definition conn_Close (w : World) : World * option error :=
  ({| written := written w; wscript := wscript w;
      incoming := incoming w; closed := true; close_err := close_err w;
      TERM := TERM w; handled := handled w; dispatched := dispatched w |},
   close_err w).

Definition with_incoming (rs : list (list Z * option error)) (w : World) : World :=
  {| written := written w; wscript := wscript w;
     incoming := rs; closed := closed w; close_err := close_err w;
     TERM := TERM w; handled := handled w; dispatched := dispatched w |}.

Definition note_handler (h : telnetOptionHandler) (data : list Z) (w : World) : World :=
  {| written := written w; wscript := wscript w;
     incoming := incoming w; closed := closed w; close_err := close_err w;
     TERM := TERM w; handled := handled w ++ [(h, data)];
     dispatched := dispatched w |}.

Definition note_dispatch (data : list Z) (w : World) : World :=
  {| written := written w; wscript := wscript w;
     incoming := incoming w; closed := closed w; close_err := close_err w;
     TERM := TERM w; handled := handled w;
     dispatched := dispatched w ++ [data] |}.

(** ** Run-time panics *)

Inductive panic : Type :=
  | IndexOutOfRange (i len : nat).

Inductive result (A : Type) : Type :=
  | Ok (a : A)
  | Panic (x : panic).
Arguments Ok {A} a.
Arguments Panic {A} x.

#[global] Instance result_bind : MBind result := fun A B k r =>
  match r with
  | Ok a => k a
  | Panic x => Panic x
  end.

(** [data[i]] on a Go slice. *)
Definition index (data : list Z) (i : nat) : result Z :=
  match data !! i with
  | Some b => Ok b
  | None => Panic (IndexOutOfRange i (length data))
  end.

(** ** Sending *)

(** [func (p Connection) Write(b []byte) (n int, err error)] *)
Definition Write (p : Connection) (b : list Z) (w : World)
  : World * (Z * option error) :=
  match state p with
  | stateNotReady => (w, (0, Some ErrNotReady))
  | _ => conn_Write w b
  end.

(** [func (p Connection) sendSB(option, operation, data) error] *)
Definition sendSB (p : Connection) (code operation : Z) (data : list Z)
    (w : World) : World * option error :=
  let result := [IAC; SB; code] in
  let result := if operation =? NONE then result else result ++ [operation] in
  let result := result ++ data in
  let result := result ++ [IAC; SE] in
  let r := Write p result w in
  let err := snd (snd r) in
  (fst r, err).

(** ["115200,115200"] as bytes. *)
Definition speed : list Z :=
  [49; 49; 53; 50; 48; 48; 44; 49; 49; 53; 50; 48; 48].

Definition terminalTypeOptionHandler (p : Connection) (data : list Z)
    (w : World) : result (World * option error) :=
  operation ← index data 3;
  if operation =? SEND then
    match TERM w with
    | None => Ok (w, None)
    | Some term => Ok (sendSB p TerminalType IS term w)
    end
  else Ok (w, None).

Definition negotiateAboutWindowSizeOptionHandler (p : Connection)
    (data : list Z) (w : World) : result (World * option error) :=
  Ok (sendSB p NegotiateAboutWindowSize NONE (winSize p) w).

Definition terminalSpeedOptionHandler (p : Connection) (data : list Z)
    (w : World) : result (World * option error) :=
  operation ← index data 3;
  if operation =? SEND then Ok (sendSB p TerminalSpeed IS speed w)
  else Ok (w, None).

(** The function a handler value stands for. *)
Definition handlerFunc (h : telnetOptionHandler)
  : Connection -> list Z -> World -> result (World * option error) :=
  match h with
  | HTerminalType => terminalTypeOptionHandler
  | HNegotiateAboutWindowSize => negotiateAboutWindowSizeOptionHandler
  | HTerminalSpeed => terminalSpeedOptionHandler
  end.

(** Calling a handler value taken from the option table. *)
Definition callHandler (h : telnetOptionHandler) (p : Connection)
    (data : list Z) (w : World) : result (World * option error) :=
  handlerFunc h p data (note_handler h data w).

(** ** The negotiation engine

    [func (p Connection) negotiateOption(data []byte) error].  The receiver
    is a copy, so nothing but the world changes.  [data[1] = ...] rewrites
    the caller's buffer in place (index 1 is in range wherever it is
    written: [data[2]] has been read before); the caller drops the buffer
    right after the call, and the rewritten buffer is what is sent and what
    a [doHandler] receives. *)
Definition negotiateOption (p : Connection) (data : list Z) (w : World)
  : result (World * option error) :=
  let w := note_dispatch data w in
  receiverCommand ← index data 1;
  receivedOptionCode ← index data 2;
  let entry := options p !! receivedOptionCode in
  if receiverCommand =? DO then
    match entry with
    | None =>
        let data := <[1%nat := WONT]> data in
        let r := conn_Write w data in
        let w := fst r in
        let err := snd (snd r) in
        Ok (w, None)
    | Some o =>
        let data := <[1%nat := if weWill o then WILL else WONT]> data in
        let r := conn_Write w data in
        let w := fst r in
        let err := snd (snd r) in
        match doHandler o with
        | Some h => callHandler h p data w
        | None => Ok (w, err)
        end
    end
  else if receiverCommand =? WILL then
    match entry with
    | None =>
        let data := <[1%nat := DONT]> data in
        let r := conn_Write w data in
        let w := fst r in
        let err := snd (snd r) in
        Ok (w, None)
    | Some o =>
        let data := <[1%nat := if peerDo o then DO else DONT]> data in
        let r := conn_Write w data in
        let w := fst r in
        let err := snd (snd r) in
        Ok (w, err)
    end
  else if receiverCommand =? SB then
    match entry with
    | Some o =>
        match sbHandler o with
        | Some h => callHandler h p data w
        | None => Ok (w, None)
        end
    | None => Ok (w, None)
    end
  else Ok (w, None).

(** ** The demultiplexer

    One iteration of the loop in [processCommands], on byte [b]. *)
Inductive exec : Type :=
  | Running (p : Connection) (commandBuffer outputData : list Z) (w : World)
  | Failed (err : error) (p : Connection) (outputData : list Z) (w : World)
  | Crashed (x : panic).

Definition isVerb (b : Z) : bool :=
  (b =? WILL) || (b =? WONT) || (b =? DO) || (b =? DONT).

Definition dispatch (p p_ok : Connection) (commandBuffer outputData : list Z)
    (w : World) : exec :=
  match negotiateOption p commandBuffer w with
  | Panic x => Crashed x
  | Ok (w', Some err) => Failed err p outputData w'
  | Ok (w', None) => Running p_ok [] outputData w'
  end.

Definition processByte (p : Connection) (commandBuffer outputData : list Z)
    (w : World) (b : Z) : exec :=
  match state p with
  | stateNotReady => Failed ErrNotReady p outputData w
  | stateData =>
      if b =? IAC then
        Running (with_state stateInIAC p) (commandBuffer ++ [b]) outputData w
      else Running p commandBuffer (outputData ++ [b]) w
  | stateInIAC =>
      let commandBuffer := commandBuffer ++ [b] in
      if isVerb b then Running p commandBuffer outputData w
      else if b =? IAC then
        Running (with_state stateData p) commandBuffer (outputData ++ [b]) w
      else if b =? SB then
        Running (with_state stateInSB p) commandBuffer outputData w
      else dispatch p (with_state stateData p) commandBuffer outputData w
  | stateInSB =>
      let p := if b =? IAC then with_state stateEscIAC p else p in
      Running p (commandBuffer ++ [b]) outputData w
  | stateEscIAC =>
      let commandBuffer := commandBuffer ++ [b] in
      let p := if b =? IAC then with_state stateInSB p else p in
      if b =? SE then
        dispatch p (with_state stateData p) commandBuffer outputData w
      else Running p commandBuffer outputData w
  end.

Fixpoint processLoop (bs : list Z) (p : Connection)
    (commandBuffer outputData : list Z) (w : World) : exec :=
  match bs with
  | [] => Running p commandBuffer outputData w
  | b :: bs' =>
      match processByte p commandBuffer outputData w b with
      | Running p' cb' out' w' => processLoop bs' p' cb' out' w'
      | stop => stop
      end
  end.

(** What [processCommands] leaves behind: the returned error, the
    receiver (it is a pointer, so the state changes stay), the output
    buffer and the world.  The command buffer is a local and is gone. *)
Inductive processed : Type :=
  | Returned (err : option error) (p : Connection) (outputData : list Z) (w : World)
  | Panicked (x : panic).

Definition processCommands (p : Connection) (buffer outputData : list Z)
    (w : World) : processed :=
  match processLoop buffer p [] outputData w with
  | Running p' _ out' w' => Returned None p' out' w'
  | Failed err p' out' w' => Returned (Some err) p' out' w'
  | Crashed x => Panicked x
  end.

(** ** Configuration and life cycle *)

(** [func (p *Connection) AddOption(...)]; a nil map and an empty map read
    alike, and the nil map is replaced by a fresh one before the store. *)
Definition AddOption (p : Connection) (optionCode : Z) (weWill peerDo : bool)
    (sbHandler doHandler : option telnetOptionHandler) : Connection :=
  with_options
    (<[optionCode := {| weWill := weWill; peerDo := peerDo;
                        sbHandler := sbHandler; doHandler := doHandler |}]>
       (options p)) p.

(** [Connect]; [dial] is the error returned by [net.Dial]. *)
Definition Connect (dial : option error) : option Connection * option error :=
  let connection := {| options := ∅; state := stateData; winSize := [] |} in
  let connection := with_state stateNotReady connection in
  match dial with
  | Some err => (None, Some err)
  | None =>
      let connection := AddOption connection BinaryTransmission false false None None in
      let connection := AddOption connection Echo false true None None in
      let connection := AddOption connection SuppressGoAhead true true None None in
      let connection := AddOption connection Status false false None None in
      let connection := AddOption connection TerminalType true true (Some HTerminalType) None in
      let connection := AddOption connection NegotiateAboutWindowSize true true
                          None (Some HNegotiateAboutWindowSize) in
      let connection := AddOption connection TerminalSpeed true true (Some HTerminalSpeed) None in
      let connection := AddOption connection RemoteFlowControl false false None None in
      let connection := with_state stateData connection in
      (Some connection, None)
  end.

(** The connection a successful [Connect] returns. *)
Definition connected : Connection :=
  default {| options := ∅; state := stateNotReady; winSize := [] |}
          (fst (Connect None)).

(** [func (p *Connection) Close() error] *)
Definition Close (p : Connection) (w : World) : Connection * World * option error :=
  let p := with_state stateNotReady p in
  let r := conn_Close w in
  (p, fst r, snd r).

(** [func (p *Connection) DisableRemoteEcho() error] *)
Definition DisableRemoteEcho (p : Connection) (w : World) : World * option error :=
  let command := [IAC; DONT; Echo] in
  let r := conn_Write w command in
  let err := snd (snd r) in
  (fst r, err).

(** Go's conversions [uint16(v)] and [byte(v)] keep the low bits. *)
Definition uint16 (v : Z) : Z := Z.land v 65535.
Definition byte (v : Z) : Z := Z.land v 255.

(** [binary.BigEndian.PutUint16(b, v)], with its early bounds check [_ = b[1]]. *)
Definition PutUint16 (b : list Z) (v : Z) : result (list Z) :=
  _ ← index b 1;
  let b := <[0%nat := byte (Z.shiftr v 8)]> b in
  let b := <[1%nat := byte v]> b in
  Ok b.

(** [func (p *Connection) SetWindowSize(width, height int)]; the two
    sub-slices [p.winSize[:2]] and [p.winSize[2:]] are the two halves of
    one array.  The handler's error is dropped. *)
Definition SetWindowSize (p : Connection) (width height : Z) (w : World)
  : result (Connection * World) :=
  let ws := if decide (length (winSize p) = 4%nat) then winSize p
            else replicate 4 0 in
  front ← PutUint16 (take 2 ws) (uint16 width);
  back ← PutUint16 (drop 2 ws) (uint16 height);
  let p := with_winSize (front ++ back) p in
  r ← negotiateAboutWindowSizeOptionHandler p [] w;
  Ok (p, fst r).

(** ** The application-facing read

    [func (p Connection) Read(b []byte) (n int, err error)].  [blen] is
    [len(b)]; the result carries [b[:n]].  [rd_local] is the receiver copy
    as the call leaves it: it is a local of [Read], kept here only to be
    compared with the caller's struct. *)
Record ReadResult : Type := {
  rd_n     : nat;
  rd_bytes : list Z;
  rd_err   : option error;
  rd_local : Connection;
  rd_world : World
}.

(** The [for] loop of [Read]; each round takes the next scripted result of
    [conn.Read], and a transport whose script has run out reports end of
    stream. *)
Fixpoint ReadLoop (rs : list (list Z * option error)) (p : Connection)
    (outputData : list Z) (blen : nat) (w : World) : result ReadResult :=
  match rs with
  | [] =>
      Ok {| rd_n := 0; rd_bytes := []; rd_err := Some ErrEOF;
            rd_local := p; rd_world := w |}
  | (raw, err) :: rs' =>
      let rawData := take bufferSize raw in
      let w := with_incoming rs' w in
      if (0 <? length rawData)%nat then
        match processCommands p rawData outputData w with
        | Panicked x => Panic x
        | Returned (Some perr) p' out' w' =>
            let n := (blen `min` length out')%nat in
            Ok {| rd_n := n; rd_bytes := take n out'; rd_err := Some perr;
                  rd_local := p'; rd_world := w' |}
        | Returned None p' out' w' =>
            let n := (blen `min` length out')%nat in
            if (0 <? n)%nat then
              Ok {| rd_n := n; rd_bytes := take n out'; rd_err := None;
                    rd_local := p'; rd_world := w' |}
            else
              match err with
              | Some e =>
                  Ok {| rd_n := n; rd_bytes := []; rd_err := Some e;
                        rd_local := p'; rd_world := w' |}
              | None => ReadLoop rs' p' out' blen w'
              end
        end
      else
        match err with
        | Some e =>
            Ok {| rd_n := 0; rd_bytes := []; rd_err := Some e;
                  rd_local := p; rd_world := w |}
        | None => ReadLoop rs' p outputData blen w
        end
  end.

Definition Read (p : Connection) (blen : nat) (w : World) : result ReadResult :=
  match state p with
  | stateNotReady =>
      Ok {| rd_n := 0; rd_bytes := []; rd_err := Some ErrNotReady;
            rd_local := p; rd_world := w |}
  | _ => ReadLoop (incoming w) p [] blen w
  end.

(** ** Method calls on the application's [*Connection]

    The application holds one pointer to the struct [Connect] returned.
    A method with a pointer receiver works on that struct; a method with a
    value receiver works on a copy made at the call, which is dropped when
    the call returns. *)
Record Client : Type := {
  obj : Connection;
  net : World
}.

Definition call_Read (c : Client) (blen : nat)
  : result (Client * (nat * list Z * option error)) :=
  let p := obj c in
  r ← Read p blen (net c);
  Ok ({| obj := obj c; net := rd_world r |}, (rd_n r, rd_bytes r, rd_err r)).

Definition call_Close (c : Client) : Client * option error :=
  let r := Close (obj c) (net c) in
  ({| obj := fst (fst r); net := snd (fst r) |}, snd r).

Definition call_SetWindowSize (c : Client) (width height : Z) : result Client :=
  r ← SetWindowSize (obj c) width height (net c);
  Ok {| obj := fst r; net := snd r |}.

Definition call_AddOption (c : Client) (optionCode : Z) (weWill peerDo : bool)
    (sbHandler doHandler : option telnetOptionHandler) : Client :=
  {| obj := AddOption (obj c) optionCode weWill peerDo sbHandler doHandler;
     net := net c |}.

(** A transport with nothing written, nothing to read and no failure. *)
Definition quiet : World :=
  {| written := []; wscript := []; incoming := []; closed := false;
     close_err := None; TERM := None; handled := []; dispatched := [] |}.

Definition with_wscript (s : list (Z * option error)) (w : World) : World :=
  {| written := written w; wscript := s;
     incoming := incoming w; closed := closed w; close_err := close_err w;
     TERM := TERM w; handled := handled w; dispatched := dispatched w |}.

Definition with_TERM (t : option (list Z)) (w : World) : World :=
  {| written := written w; wscript := wscript w;
     incoming := incoming w; closed := closed w; close_err := close_err w;
     TERM := t; handled := handled w; dispatched := dispatched w |}.

(** ** Auxiliary notions for the statements *)

(** The bytes that take the last branch of the [stateInIAC] case, the one
    the source marks [// option code]: every byte but the four verbs,
    [IAC] and [SB]. *)
Definition takenAsOptionCode (b : Z) : bool :=
  negb (isVerb b) && negb (b =? IAC) && negb (b =? SB).

(** The error the next [conn.Write] will report. *)
Definition nextWriteError (w : World) : option error :=
  snd (snd (conn_Write w [])).

(** The four bytes [SetWindowSize] leaves in [winSize]. *)
Definition sizeBytes (width height : Z) : list Z :=
  [byte (Z.shiftr (uint16 width) 8); byte (uint16 width);
   byte (Z.shiftr (uint16 height) 8); byte (uint16 height)].

(** Two structs that differ at most in [state]. *)
Definition sameConfig (p p' : Connection) : Prop :=
  options p' = options p /\ winSize p' = winSize p.

(** A transport failure. *)
Definition brokenPipe : error := ErrTransport "broken pipe".

(** The escaping convention of RFC 854: a data byte 255 travels as IAC IAC.
    The package has no such function (its [Write] sends the bytes as they
    are); it is used here to state what the demultiplexer undoes. *)
Definition escapeIAC (data : list Z) : list Z :=
  flat_map (fun b => if b =? IAC then [IAC; IAC] else [b]) data.

(** ["Hello telnet"], the data of the package's [TestConnect]. *)
Definition helloTelnet : list Z :=
  [72; 101; 108; 108; 111; 32; 116; 101; 108; 110; 101; 116].

(** ** Notions for the further properties *)

(** An entry without handlers. *)
Definition plainOption (ww pd : bool) : telnetOption :=
  {| weWill := ww; peerDo := pd; sbHandler := None; doHandler := None |}.

(** The eight [AddOption] calls of [Connect], read as a function of the
    option code. *)
Definition defaultEntry (X : Z) : option telnetOption :=
  if X =? BinaryTransmission then Some (plainOption false false)
  else if X =? Echo then Some (plainOption false true)
  else if X =? SuppressGoAhead then Some (plainOption true true)
  else if X =? Status then Some (plainOption false false)
  else if X =? TerminalType then
    Some {| weWill := true; peerDo := true;
            sbHandler := Some HTerminalType; doHandler := None |}
  else if X =? NegotiateAboutWindowSize then
    Some {| weWill := true; peerDo := true;
            sbHandler := None; doHandler := Some HNegotiateAboutWindowSize |}
  else if X =? TerminalSpeed then
    Some {| weWill := true; peerDo := true;
            sbHandler := Some HTerminalSpeed; doHandler := None |}
  else if X =? RemoteFlowControl then Some (plainOption false false)
  else None.

(** A sub-negotiation as it travels: IAC SB, the body with every 255
    doubled, IAC SE. *)
Definition subnegotiation (body : list Z) : list Z :=
  [IAC; SB] ++ escapeIAC body ++ [IAC; SE].

(** The option code of a sub-negotiation: the first byte of its body. *)
Definition subnegotiationCode (body : list Z) : Z := hd IAC body.

(** [w'] is [w] after some more writes, handler calls and dispatches;
    the rest of the world is the same. *)
Definition grows (w w' : World) : Prop :=
  (exists ws, written w' = written w ++ ws
              /\ wscript w' = drop (length ws) (wscript w))
  /\ (exists hs, handled w' = handled w ++ hs)
  /\ (exists ds, dispatched w' = dispatched w ++ ds)
  /\ incoming w' = incoming w
  /\ closed w' = closed w
  /\ close_err w' = close_err w
  /\ TERM w' = TERM w.

(** [out'] is [out] with at most [bound] bytes appended. *)
Definition appended (bound : nat) (out out' : list Z) : Prop :=
  exists more, out' = out ++ more /\ (length more <= bound)%nat.

(** What a step of the loop may have done when it did not panic. *)
Definition stepInvariant (bound : nat) (p : Connection) (out : list Z)
    (w : World) (r : exec) : Prop :=
  match r with
  | Running p' _ out' w' | Failed _ p' out' w' =>
      appended bound out out' /\ grows w w'
      /\ (state p <> stateNotReady -> state p' <> stateNotReady)
  | Crashed _ => True
  end.

(** Every coming [conn.Write] succeeds. *)
Definition healthy (w : World) : Prop :=
  Forall (fun r => snd r = None) (wscript w).

(** The loop goes on, ready, on a transport that is still healthy. *)
Definition stepHealthy (r : exec) : Prop :=
  match r with
  | Running p' _ _ w' => state p' <> stateNotReady /\ healthy w'
  | Failed _ _ _ _ => False
  | Crashed _ => True
  end.

(** What a Telnet peer sends: a data byte (255 travels doubled), a
    negotiation command, or a sub-negotiation block. *)
Inductive token : Type :=
  | TByte (b : Z)
  | TNegotiation (verb X : Z)
  | TSubnegotiation (body : list Z).

(** The bytes of a token on the wire. *)
Definition wire (t : token) : list Z :=
  match t with
  | TByte b => escapeIAC [b]
  | TNegotiation verb X => [IAC; verb; X]
  | TSubnegotiation body => subnegotiation body
  end.

(** The plain data a token carries. *)
Definition dataOf (t : token) : list Z :=
  match t with
  | TByte b => [b]
  | _ => []
  end.

(** Verbs are verbs, and option bytes are bytes the demultiplexer takes as
    option codes. *)
Definition wellFormed (t : token) : Prop :=
  match t with
  | TNegotiation verb X => isVerb verb = true /\ takenAsOptionCode X = true
  | _ => True
  end.

(** No option has a post-acceptance handler that reads [data[3]]. *)
Definition safeTable (p : Connection) : Prop :=
  forall (X : Z) (o : telnetOption),
    options p !! X = Some o ->
    doHandler o = None \/ doHandler o = Some HNegotiateAboutWindowSize.

(** The loop on a well-formed stream: all the data and back in the Data
    state, or an error after part of the data; never a panic. *)
Definition streamOutcome (p : Connection) (out data : list Z) (r : exec) : Prop :=
  match r with
  | Running q _ out' _ => q = p /\ out' = out ++ data
  | Failed _ _ out' _ => exists pre, out' = out ++ pre /\ pre `prefix_of` data
  | Crashed _ => False
  end.

(** * Properties *)

(** ** Basic facts about the embedding *)

Lemma with_state_same (p : Connection) : with_state (state p) p = p.
Proof. destruct p; reflexivity. Qed.

Lemma with_state_twice (s s' : streamState) (p : Connection) :
  with_state s (with_state s' p) = with_state s p.
Proof. reflexivity. Qed.

Lemma with_state_Data (p : Connection) :
  state p = stateData -> with_state stateData p = p.
Proof. intros <-. apply with_state_same. Qed.

Lemma neq_eqb (a b : Z) : a <> b -> (a =? b) = false.
Proof. apply Z.eqb_neq. Qed.

(** In [stateData] a byte other than [IAC] goes to the output and touches
    nothing else. *)
Lemma processByte_Data_plain (p : Connection) (cb out : list Z) (w : World) (b : Z) :
  state p = stateData -> b <> IAC ->
  processByte p cb out w b = Running p cb (out ++ [b]) w.
Proof.
  intros Hs Hb. unfold processByte. rewrite Hs, (neq_eqb _ _ Hb). reflexivity.
Qed.

(** In [stateData] the byte [IAC] opens a command. *)
Lemma processByte_Data_IAC (p : Connection) (cb out : list Z) (w : World) :
  state p = stateData ->
  processByte p cb out w IAC = Running (with_state stateInIAC p) (cb ++ [IAC]) out w.
Proof. intros Hs. unfold processByte. rewrite Hs. reflexivity. Qed.

(** A second [IAC] right after the first is the escaped data byte 255. *)
Lemma processByte_InIAC_IAC (p : Connection) (cb out : list Z) (w : World) :
  state p = stateInIAC ->
  processByte p cb out w IAC
  = Running (with_state stateData p) (cb ++ [IAC]) (out ++ [IAC]) w.
Proof. intros Hs. unfold processByte. rewrite Hs. reflexivity. Qed.

Lemma processLoop_plain (input : list Z) :
  Forall (fun b => b <> IAC) input ->
  forall (p : Connection) (cb out : list Z) (w : World),
    state p = stateData ->
    processLoop input p cb out w = Running p cb (out ++ input) w.
Proof.
  induction 1 as [|b bs Hb _ IH]; intros p cb out w Hs; simpl.
  - by rewrite app_nil_r.
  - rewrite processByte_Data_plain by assumption.
    rewrite IH by assumption. by rewrite <- app_assoc.
Qed.

Lemma processLoop_escape (rest : list Z) (p : Connection) (cb out : list Z) (w : World) :
  state p = stateData ->
  processLoop (IAC :: IAC :: rest) p cb out w
  = processLoop rest p (cb ++ [IAC; IAC]) (out ++ [IAC]) w.
Proof.
  intros Hs. cbn [processLoop].
  rewrite processByte_Data_IAC by assumption.
  rewrite processByte_InIAC_IAC by reflexivity.
  rewrite with_state_twice, (with_state_Data p Hs), <- app_assoc.
  reflexivity.
Qed.

(** The loop on a concatenation: the second part starts where the first
    one stopped. *)
Lemma processLoop_app (l1 l2 : list Z) :
  forall (p : Connection) (cb out : list Z) (w : World),
    processLoop (l1 ++ l2) p cb out w
    = match processLoop l1 p cb out w with
      | Running p' cb' out' w' => processLoop l2 p' cb' out' w'
      | stop => stop
      end.
Proof.
  induction l1 as [|b l1 IH]; intros p cb out w; simpl; [reflexivity|].
  destruct (processByte p cb out w b); auto.
Qed.

(** ** The escaped data byte *)

(** C4.  While the demultiplexer is in the Data state, the doubled
    sequence IAC IAC adds exactly one byte 255 to the plain-data output,
    writes nothing to the transport, and leaves the demultiplexer in the
    Data state, whatever was received before and whatever follows; and the
    input 72 255 255 116 101 108 comes out as 72 255 116 101 108. *)
Theorem doubled_IAC_is_one_data_byte :
  (forall (before after : list Z) (p p' : Connection) (cb0 out0 cb out : list Z)
          (w w' : World),
      state p = stateData ->
      processLoop before p cb0 out0 w = Running p' cb out w' ->
      state p' = stateData ->
      processLoop (before ++ IAC :: IAC :: after) p cb0 out0 w
      = processLoop after p' (cb ++ [IAC; IAC]) (out ++ [IAC]) w')
  /\ (forall (p : Connection) (out : list Z) (w : World),
         state p = stateData ->
         processCommands p [IAC; IAC] out w = Returned None p (out ++ [IAC]) w)
  /\ (forall (p : Connection) (w : World),
         state p = stateData ->
         processCommands p [72; 255; 255; 116; 101; 108] [] w
         = Returned None p [72; 255; 116; 101; 108] w).
Proof.
  split; [|split].
  - intros before after p p' cb0 out0 cb out w w' _ Hbefore Hs'.
    rewrite processLoop_app, Hbefore.
    by apply processLoop_escape.
  - intros p out w Hs. unfold processCommands.
    rewrite processLoop_escape by assumption. reflexivity.
  - intros p w Hs. unfold processCommands.
    change [72; 255; 255; 116; 101; 108] with ([72] ++ IAC :: IAC :: [116; 101; 108]).
    rewrite processLoop_app.
    rewrite processLoop_plain by (try assumption; repeat constructor; discriminate).
    rewrite processLoop_escape by assumption.
    rewrite processLoop_plain by (try assumption; repeat constructor; discriminate).
    reflexivity.
Qed.

Lemma doubled_IAC_is_one_data_byte_witness :
  processLoop ([72; IAC; DO; Echo] ++ IAC :: IAC :: [116]) connected [] [] quiet
  = processLoop [116] connected ([] ++ [IAC; IAC]) ([72] ++ [IAC])
      (fst (conn_Write (note_dispatch [IAC; DO; Echo] quiet) [IAC; WONT; Echo]))
  /\ processCommands connected [IAC; IAC] [7] quiet = Returned None connected ([7] ++ [IAC]) quiet
  /\ processCommands connected [72; 255; 255; 116; 101; 108] [] quiet
     = Returned None connected [72; 255; 116; 101; 108] quiet.
Proof.
  destruct doubled_IAC_is_one_data_byte as (H1 & H2 & H3).
  split; [|split].
  - apply (H1 [72; IAC; DO; Echo] [116] connected connected [] [] [] [72] quiet);
      reflexivity.
  - apply (H2 connected [7] quiet). reflexivity.
  - apply (H3 connected quiet). reflexivity.
Defined.

Lemma processLoop_escaped (data : list Z) :
  forall (p : Connection) (cb out : list Z) (w : World),
    state p = stateData ->
    exists cb',
      processLoop (escapeIAC data) p cb out w = Running p cb' (out ++ data) w.
Proof.
  induction data as [|b data IH]; intros p cb out w Hs; simpl.
  - exists cb. by rewrite app_nil_r.
  - destruct (Z.eqb_spec b IAC) as [->|Hb].
    + change ([IAC; IAC] ++ escapeIAC data) with (IAC :: IAC :: escapeIAC data).
      rewrite processLoop_escape by assumption.
      destruct (IH p (cb ++ [IAC; IAC]) (out ++ [IAC]) w Hs) as [cb' ->].
      exists cb'. by rewrite <- app_assoc.
    + change ([b] ++ escapeIAC data) with (b :: escapeIAC data).
      cbn [processLoop]. rewrite processByte_Data_plain by assumption.
      destruct (IH p cb (out ++ [b]) w Hs) as [cb' ->].
      exists cb'. by rewrite <- app_assoc.
Qed.

(** X12.  Data in which every byte 255 has been doubled, processed from
    the Data state, comes out as it was before the doubling; nothing is
    written and the connection is unchanged. *)
Lemma escaped_data_decodes (p : Connection) (data out : list Z) (w : World) :
  state p = stateData ->
  processCommands p (escapeIAC data) out w = Returned None p (out ++ data) w.
Proof.
  intros Hs. unfold processCommands.
  destruct (processLoop_escaped data p [] out w Hs) as [cb' ->]. reflexivity.
Qed.

(** ** Plain data passes through *)

(** C5.  A byte sequence without the byte 255, processed from the Data
    state, is appended to the plain-data output unchanged; the
    demultiplexer stays in the Data state (the connection is unchanged),
    and the world is unchanged: no transport write, no handler
    invocation, no dispatch. *)
Theorem plain_data_passes_through (p : Connection) (input out : list Z) (w : World) :
  state p = stateData ->
  Forall (fun b => b <> IAC) input ->
  processCommands p input out w = Returned None p (out ++ input) w.
Proof.
  intros Hs Hin. unfold processCommands.
  rewrite processLoop_plain by assumption. reflexivity.
Qed.

Lemma plain_data_passes_through_witness :
  processCommands connected [112; 108; 97; 105; 110] [] quiet
  = Returned None connected ([] ++ [112; 108; 97; 105; 110]) quiet.
Proof.
  apply (plain_data_passes_through connected [112; 108; 97; 105; 110] [] quiet).
  - reflexivity.
  - repeat constructor; discriminate.
Defined.

(** ** What a call changes in the world *)

Lemma bind_Ok {A B : Type} (a : A) (k : A -> result B) : (Ok a ≫= k) = k a.
Proof. reflexivity. Qed.

Lemma bind_Panic {A B : Type} (x : panic) (k : A -> result B) :
  (Panic x ≫= k) = Panic x.
Proof. reflexivity. Qed.

Lemma Ok_inj {A : Type} (a b : A) : Ok a = Ok b -> a = b.
Proof. by intros [= ->]. Qed.

Lemma conn_Write_written (w : World) (b : list Z) :
  written (fst (conn_Write w b)) = written w ++ [b].
Proof. reflexivity. Qed.

Lemma sendSB_dispatched (p : Connection) (code op : Z) (data : list Z) (w : World) :
  dispatched (fst (sendSB p code op data w)) = dispatched w.
Proof. unfold sendSB, Write. destruct (state p), (op =? NONE); reflexivity. Qed.

Lemma sendSB_handled (p : Connection) (code op : Z) (data : list Z) (w : World) :
  handled (fst (sendSB p code op data w)) = handled w.
Proof. unfold sendSB, Write. destruct (state p), (op =? NONE); reflexivity. Qed.

(** The three handlers leave both traces alone. *)
Lemma handlers_keep_traces (h : telnetOptionHandler) (p : Connection)
    (data : list Z) (w w' : World) (err : option error) :
  handlerFunc h p data w = Ok (w', err) ->
  dispatched w' = dispatched w /\ handled w' = handled w.
Proof.
  assert (Hsend : forall c o d, sendSB p c o d w = (w', err) ->
            dispatched w' = dispatched w /\ handled w' = handled w).
  { intros c o d E. split.
    - rewrite <- (sendSB_dispatched p c o d w), E. reflexivity.
    - rewrite <- (sendSB_handled p c o d w), E. reflexivity. }
  destruct h;
    unfold handlerFunc, terminalTypeOptionHandler, negotiateAboutWindowSizeOptionHandler,
      terminalSpeedOptionHandler, index.
  - destruct (data !! 3%nat) as [op|]; [rewrite bind_Ok|discriminate].
    destruct (op =? SEND); [destruct (TERM w)|]; intros E%Ok_inj; eauto.
    all: by simplify_eq.
  - intros E%Ok_inj; eauto.
  - destruct (data !! 3%nat) as [op|]; [rewrite bind_Ok|discriminate].
    destruct (op =? SEND); intros E%Ok_inj; eauto. by simplify_eq.
Qed.

Lemma callHandler_dispatched (h : telnetOptionHandler) (p : Connection)
    (data : list Z) (w w' : World) (err : option error) :
  callHandler h p data w = Ok (w', err) -> dispatched w' = dispatched w.
Proof.
  unfold callHandler. intros Hcall.
  apply (handlers_keep_traces h) in Hcall. apply Hcall.
Qed.


(** Every call of [negotiateOption] that returns has been recorded once,
    with the buffer it was given. *)
Lemma negotiateOption_dispatched (p : Connection) (data : list Z) (w w' : World)
    (err : option error) :
  negotiateOption p data w = Ok (w', err) ->
  dispatched w' = dispatched w ++ [data].
Proof.
  unfold negotiateOption, index.
  destruct (data !! 1%nat) as [verb|]; [rewrite bind_Ok|discriminate].
  destruct (data !! 2%nat) as [code|]; [rewrite bind_Ok|discriminate].
  cbv zeta.
  repeat case_match;
    try (intros [= <- <-]; reflexivity);
    try (intros Hcall; apply callHandler_dispatched in Hcall; exact Hcall).
Qed.

(** ** The option-code branch *)

Lemma takenAsOptionCode_spec (b : Z) :
  takenAsOptionCode b = true <-> ~ (250 <= b <= 255).
Proof.
  unfold takenAsOptionCode, isVerb, WILL, WONT, DO, DONT, IAC, SB.
  rewrite !andb_true_iff, !negb_true_iff, !orb_false_iff, !Z.eqb_neq. lia.
Qed.

Lemma processByte_InIAC_verb (p : Connection) (cb out : list Z) (w : World) (b : Z) :
  state p = stateInIAC -> isVerb b = true ->
  processByte p cb out w b = Running p (cb ++ [b]) out w.
Proof. intros Hs Hv. unfold processByte. rewrite Hs, Hv. reflexivity. Qed.

Lemma processByte_InIAC_option (p : Connection) (cb out : list Z) (w : World) (b : Z) :
  state p = stateInIAC -> takenAsOptionCode b = true ->
  processByte p cb out w b
  = dispatch p (with_state stateData p) (cb ++ [b]) out w.
Proof.
  intros Hs Hb. unfold processByte. rewrite Hs.
  unfold takenAsOptionCode in Hb.
  rewrite !andb_true_iff, !negb_true_iff in Hb. destruct Hb as [[-> ->] ->].
  reflexivity.
Qed.

(** A three-byte command in a fresh call of [processCommands]. *)
Lemma processCommands_command (p : Connection) (verb X : Z) (out : list Z) (w : World) :
  state p = stateData -> isVerb verb = true -> takenAsOptionCode X = true ->
  processCommands p [IAC; verb; X] out w
  = match negotiateOption (with_state stateInIAC p) [IAC; verb; X] w with
    | Panic x => Panicked x
    | Ok (w', Some err) => Returned (Some err) (with_state stateInIAC p) out w'
    | Ok (w', None) => Returned None p out w'
    end.
Proof.
  intros Hs Hv HX. unfold processCommands. cbn [processLoop].
  rewrite processByte_Data_IAC by assumption.
  rewrite processByte_InIAC_verb by (reflexivity || assumption).
  rewrite processByte_InIAC_option by (reflexivity || assumption).
  unfold dispatch. cbn [app].
  rewrite with_state_twice, (with_state_Data p Hs).
  destruct (negotiateOption _ _ _) as [[w' [err|]]|x]; reflexivity.
Qed.

(** ** Indexing the command buffer *)

(** C1.  Input IAC followed by one byte that is not a verb, not IAC and
    not SB (241, NOP, for one), processed from the Data state: the
    two-byte buffer is handed to [negotiateOption], which reads [data[1]]
    and then [data[2]] without looking at the length, and the run ends in
    the panic "index out of range [2] with length 2". *)
Theorem two_byte_command_panics (p : Connection) (b : Z) (out : list Z) (w : World) :
  state p = stateData -> ~ (250 <= b <= 255) ->
  processCommands p [IAC; b] out w = Panicked (IndexOutOfRange 2 2).
Proof.
  intros Hs Hb. apply takenAsOptionCode_spec in Hb.
  unfold processCommands. cbn [processLoop].
  rewrite processByte_Data_IAC by assumption.
  rewrite processByte_InIAC_option by (reflexivity || assumption).
  reflexivity.
Qed.

Lemma two_byte_command_panics_witness :
  processCommands connected [IAC; 241] [] quiet = Panicked (IndexOutOfRange 2 2).
Proof.
  apply (two_byte_command_panics connected 241 [] quiet); [reflexivity | lia].
Defined.

(** ** The option byte after a verb *)

(** C2, as the code has it.  In the InIAC state with IAC and a verb
    pending, a next byte X other than 250..255 is taken as the option code
    of the command IAC verb X: the three bytes are passed to
    [negotiateOption] exactly once; when that call returns no error the
    buffer is cleared and the state is Data; when it returns an error the
    loop stops with that error and the state is still InIAC; a panic in the
    call ends the run. *)
Theorem option_code_after_verb (p : Connection) (out : list Z) (w : World)
    (verb X : Z) :
  state p = stateInIAC -> isVerb verb = true -> ~ (250 <= X <= 255) ->
  match negotiateOption p [IAC; verb; X] w with
  | Ok (w', None) =>
      processByte p [IAC; verb] out w X
      = Running (with_state stateData p) [] out w'
      /\ dispatched w' = dispatched w ++ [[IAC; verb; X]]
  | Ok (w', Some err) =>
      processByte p [IAC; verb] out w X = Failed err p out w'
      /\ dispatched w' = dispatched w ++ [[IAC; verb; X]]
  | Panic x => processByte p [IAC; verb] out w X = Crashed x
  end.
Proof.
  intros Hs Hv HX. apply takenAsOptionCode_spec in HX.
  rewrite (processByte_InIAC_option p [IAC; verb] out w X Hs HX).
  unfold dispatch. cbn [app].
  destruct (negotiateOption p [IAC; verb; X] w) as [[w' [err|]]|x] eqn:E;
    [split; [reflexivity|] .. | reflexivity];
    exact (negotiateOption_dispatched _ _ _ _ _ E).
Qed.

Lemma option_code_after_verb_witness :
  processByte (with_state stateInIAC connected) [IAC; WILL] [] quiet Echo
  = Running (with_state stateData (with_state stateInIAC connected)) [] []
      (fst (conn_Write (note_dispatch [IAC; WILL; Echo] quiet) [IAC; DO; Echo]))
  /\ dispatched (fst (conn_Write (note_dispatch [IAC; WILL; Echo] quiet) [IAC; DO; Echo]))
     = dispatched quiet ++ [[IAC; WILL; Echo]].
Proof.
  apply (option_code_after_verb (with_state stateInIAC connected) [] quiet WILL Echo).
  - reflexivity.
  - reflexivity.
  - unfold Echo. lia.
Defined.

(** C2 as the specification words it fails for the bytes 250..255: with IAC DO
    pending, the byte 253 is appended and awaited further; the state stays
    InIAC, the buffer is kept, and nothing is dispatched. *)
Lemma verb_byte_after_verb_is_not_dispatched :
  processByte (with_state stateInIAC connected) [IAC; DO] [] quiet 253
  = Running (with_state stateInIAC connected) [IAC; DO; 253] [] quiet
  /\ state (with_state stateInIAC connected) <> stateData
  /\ [IAC; DO; 253] <> @nil Z
  /\ dispatched quiet = []
  /\ processCommands connected [IAC; DO; 253] [] quiet
     = Returned None (with_state stateInIAC connected) [] quiet.
Proof. repeat split; discriminate. Qed.

(** A dispatch that returns an error: the reply to IAC WILL 1 cannot be
    written, the loop returns the error, and the state is still InIAC. *)
Lemma failed_dispatch_keeps_InIAC :
  exists w',
    processCommands connected [IAC; WILL; Echo] []
      (with_wscript [(0, Some brokenPipe)] quiet)
    = Returned (Some brokenPipe) (with_state stateInIAC connected) [] w'
    /\ written w' = [[IAC; DO; Echo]]
    /\ dispatched w' = [[IAC; WILL; Echo]].
Proof. eexists. repeat split. Qed.

(** ** Replies to DO and WILL *)

Lemma negotiateOption_DO_unconfigured (p : Connection) (X : Z) (w : World) :
  options p !! X = None ->
  negotiateOption p [IAC; DO; X] w
  = Ok (fst (conn_Write (note_dispatch [IAC; DO; X] w) [IAC; WONT; X]), None).
Proof. intros H. unfold negotiateOption. cbn. rewrite H. reflexivity. Qed.

Lemma negotiateOption_DO_configured (p : Connection) (X : Z) (o : telnetOption)
    (w : World) :
  options p !! X = Some o ->
  let reply := [IAC; if weWill o then WILL else WONT; X] in
  let w1 := fst (conn_Write (note_dispatch [IAC; DO; X] w) reply) in
  negotiateOption p [IAC; DO; X] w
  = match doHandler o with
    | Some h => callHandler h p reply w1
    | None => Ok (w1, nextWriteError w)
    end.
Proof.
  intros H. unfold negotiateOption, nextWriteError. cbn. rewrite H.
  destruct (doHandler o); [reflexivity|]. by destruct (wscript w).
Qed.

Lemma negotiateOption_WILL_unconfigured (p : Connection) (X : Z) (w : World) :
  options p !! X = None ->
  negotiateOption p [IAC; WILL; X] w
  = Ok (fst (conn_Write (note_dispatch [IAC; WILL; X] w) [IAC; DONT; X]), None).
Proof. intros H. unfold negotiateOption. cbn. rewrite H. reflexivity. Qed.

Lemma negotiateOption_WILL_configured (p : Connection) (X : Z) (o : telnetOption)
    (w : World) :
  options p !! X = Some o ->
  let reply := [IAC; if peerDo o then DO else DONT; X] in
  negotiateOption p [IAC; WILL; X] w
  = Ok (fst (conn_Write (note_dispatch [IAC; WILL; X] w) reply), nextWriteError w).
Proof.
  intros H. unfold negotiateOption, nextWriteError. cbn. rewrite H.
  by destruct (wscript w).
Qed.



(** A terminal-type or terminal-speed handler registered as a
    post-acceptance handler reads [data[3]] of the three-byte reply. *)
Lemma terminal_handler_after_DO_panics (p : Connection) (X : Z) (o : telnetOption)
    (out : list Z) (w : World) :
  state p = stateData -> takenAsOptionCode X = true ->
  options p !! X = Some o ->
  doHandler o = Some HTerminalType \/ doHandler o = Some HTerminalSpeed ->
  processCommands p [IAC; DO; X] out w = Panicked (IndexOutOfRange 3 3).
Proof.
  intros Hs HX Ho Hh.
  rewrite processCommands_command by (reflexivity || assumption).
  rewrite (negotiateOption_DO_configured _ X o) by exact Ho.
  destruct Hh as [-> | ->]; reflexivity.
Qed.


(** A command that follows an escaped data byte in the same chunk meets a
    command buffer that still holds the two escape bytes: the five-byte
    buffer is dispatched, its second byte is IAC, and no reply is sent. *)
Lemma command_after_escape_gets_no_reply :
  exists w',
    processCommands connected [IAC; IAC; IAC; DO; Echo] [] quiet
    = Returned None connected [255] w'
    /\ written w' = []
    /\ dispatched w' = [[IAC; IAC; IAC; DO; Echo]].
Proof. eexists. repeat split. Qed.

(** ** The window size *)

Lemma uint16_small (v : Z) : 0 <= v <= 65535 -> uint16 v = v.
Proof.
  intros Hv. unfold uint16. change 65535 with (Z.ones 16).
  rewrite Z.land_ones by lia. apply Z.mod_small. lia.
Qed.

Lemma byte_mod (v : Z) : byte v = v mod 256.
Proof.
  unfold byte. change 255 with (Z.ones 8). rewrite Z.land_ones by lia.
  reflexivity.
Qed.

Lemma byte_high (v : Z) : 0 <= v <= 65535 -> byte (Z.shiftr v 8) = v / 256.
Proof.
  intros Hv. rewrite byte_mod, Z.shiftr_div_pow2 by lia.
  change (2 ^ 8) with 256. apply Z.mod_small.
  split; [apply Z.div_pos; lia | apply Z.div_lt_upper_bound; lia].
Qed.

Lemma length_4 {A : Type} (l : list A) :
  length l = 4%nat -> exists a b c d, l = [a; b; c; d].
Proof.
  destruct l as [|a [|b [|c [|d [|e l]]]]]; try discriminate. eauto.
Qed.

(** [SetWindowSize] never panics; it stores the four bytes and calls the
    window-size handler on the updated struct. *)
Lemma SetWindowSize_eq (p : Connection) (width height : Z) (w : World) :
  SetWindowSize p width height w
  = let p' := with_winSize (sizeBytes width height) p in
    Ok (p', fst (sendSB p' NegotiateAboutWindowSize NONE (sizeBytes width height) w)).
Proof.
  unfold SetWindowSize.
  destruct (decide (length (winSize p) = 4%nat)) as [H4|_].
  - destruct (length_4 _ H4) as (a & b & c & d & ->). reflexivity.
  - reflexivity.
Qed.

Lemma sendSB_NAWS_ready (p : Connection) (payload : list Z) (w : World) :
  state p <> stateNotReady ->
  written (fst (sendSB p NegotiateAboutWindowSize NONE payload w))
  = written w ++ [[IAC; SB; NegotiateAboutWindowSize] ++ payload ++ [IAC; SE]].
Proof.
  intros Hs. unfold sendSB, Write. cbn.
  destruct (state p); try contradiction; reflexivity.
Qed.

(** C6.  On a connection that is ready (the state is not NotReady), the
    window-size update with width 80 and height 24 stores the bytes
    0 80 0 24 and sends 255 250 31 0 80 0 24 255 240 in one write; and
    for every width and height in [0, 65535] it stores width and height as
    big-endian 16-bit values (high byte v / 256, low byte v mod 256) and
    sends IAC SB 31, these four bytes, IAC SE, with no operation byte. *)
Theorem window_size_update_frame (p : Connection) (w : World) :
  state p <> stateNotReady ->
  (exists w',
      SetWindowSize p 80 24 w = Ok (with_winSize [0; 80; 0; 24] p, w')
      /\ written w' = written w ++ [[255; 250; 31; 0; 80; 0; 24; 255; 240]])
  /\ (forall width height : Z,
         0 <= width <= 65535 -> 0 <= height <= 65535 ->
         exists w',
           SetWindowSize p width height w
           = Ok (with_winSize [width / 256; width mod 256;
                               height / 256; height mod 256] p, w')
           /\ written w'
              = written w ++ [[IAC; SB; NegotiateAboutWindowSize;
                               width / 256; width mod 256;
                               height / 256; height mod 256; IAC; SE]]).
Proof.
  intros Hs. split.
  - rewrite SetWindowSize_eq. cbv zeta. eexists. split; [reflexivity|].
    rewrite sendSB_NAWS_ready by exact Hs. reflexivity.
  - intros width height Hw Hh.
    rewrite SetWindowSize_eq. cbv zeta. unfold sizeBytes.
    rewrite !uint16_small, !byte_high, !byte_mod by assumption.
    eexists. split; [reflexivity|].
    rewrite sendSB_NAWS_ready by exact Hs. reflexivity.
Qed.

Lemma window_size_update_frame_witness :
  (exists w',
      SetWindowSize connected 80 24 quiet
      = Ok (with_winSize [0; 80; 0; 24] connected, w')
      /\ written w' = written quiet ++ [[255; 250; 31; 0; 80; 0; 24; 255; 240]])
  /\ (exists w',
         SetWindowSize connected 132 43 quiet
         = Ok (with_winSize [132 / 256; 132 mod 256; 43 / 256; 43 mod 256]
                 connected, w')
         /\ written w'
            = written quiet ++ [[IAC; SB; NegotiateAboutWindowSize;
                                 132 / 256; 132 mod 256;
                                 43 / 256; 43 mod 256; IAC; SE]]).
Proof.
  destruct (window_size_update_frame connected quiet) as [H80 Hall].
  - discriminate.
  - split; [exact H80 | apply Hall; lia].
Defined.

(** The demultiplexer changes nothing of the struct but [state]. *)
Lemma sameConfig_refl (p : Connection) : sameConfig p p.
Proof. by split. Qed.

Lemma sameConfig_trans (p q r : Connection) :
  sameConfig p q -> sameConfig q r -> sameConfig p r.
Proof. intros [? ?] [? ?]. split; congruence. Qed.

Lemma sameConfig_with_state (s : streamState) (p : Connection) :
  sameConfig p (with_state s p).
Proof. by split. Qed.

Lemma processByte_keeps (p : Connection) (cb out : list Z) (w : World) (b : Z) :
  match processByte p cb out w b with
  | Running p' _ _ _ | Failed _ p' _ _ => sameConfig p p'
  | Crashed _ => True
  end.
Proof.
  unfold processByte, dispatch.
  destruct (state p); repeat case_match; simplify_eq;
    try exact I; split; reflexivity.
Qed.

Lemma processLoop_keeps (bs : list Z) :
  forall (p : Connection) (cb out : list Z) (w : World),
    match processLoop bs p cb out w with
    | Running p' _ _ _ | Failed _ p' _ _ => sameConfig p p'
    | Crashed _ => True
    end.
Proof.
  induction bs as [|b bs IH]; intros p cb out w; simpl.
  - apply sameConfig_refl.
  - pose proof (processByte_keeps p cb out w b) as Hb.
    destruct (processByte p cb out w b) as [p1 cb1 out1 w1| |]; try exact Hb.
    specialize (IH p1 cb1 out1 w1).
    destruct (processLoop bs p1 cb1 out1 w1); eauto using sameConfig_trans.
Qed.

Lemma processCommands_keeps (p p' : Connection) (input out out' : list Z)
    (w w' : World) (err : option error) :
  processCommands p input out w = Returned err p' out' w' -> sameConfig p p'.
Proof.
  unfold processCommands. pose proof (processLoop_keeps input p [] out w) as H.
  destruct (processLoop input p [] out w); intros [= <- <- <- <-] || discriminate;
    exact H.
Qed.

(** DO for the window-size option on a ready table entry: the reply, then
    the frame with the stored bytes. *)
Lemma processCommands_DO_NAWS (p : Connection) (o : telnetOption) (X : Z)
    (out : list Z) (w : World) :
  state p = stateData -> takenAsOptionCode X = true ->
  options p !! X = Some o -> doHandler o = Some HNegotiateAboutWindowSize ->
  let reply := [IAC; if weWill o then WILL else WONT; X] in
  exists err p' w',
    processCommands p [IAC; DO; X] out w = Returned err p' out w'
    /\ written w'
       = written w ++ [reply; [IAC; SB; NegotiateAboutWindowSize]
                                ++ winSize p ++ [IAC; SE]]
    /\ handled w' = handled w ++ [(HNegotiateAboutWindowSize, reply)].
Proof.
  intros Hs HX Ho Hh reply.
  rewrite processCommands_command by (reflexivity || assumption).
  rewrite (negotiateOption_DO_configured _ X o) by exact Ho.
  fold reply. rewrite Hh.
  unfold callHandler, handlerFunc, negotiateAboutWindowSizeOptionHandler,
    sendSB, Write. cbn.
  match goal with
  | |- context [match ?e with Some _ => _ | None => _ end] => destruct e
  end; do 3 eexists; (split; [reflexivity|]); cbn;
    rewrite <- app_assoc; split; reflexivity.
Qed.

(** X23.  [SetWindowSize] never panics and always leaves a four-byte
    buffer; once the buffer has four bytes, [AddOption], [Close], the
    demultiplexer, the application-facing read and a further
    [SetWindowSize] keep it at four bytes; and a ready connection with a
    four-byte buffer sends exactly these four bytes as payload in every
    window-size frame: the one the handler sends when called, and the one
    that follows the reply to a peer's DO. *)
Theorem window_size_buffer_after_update :
  (forall (p : Connection) (width height : Z) (w : World),
      exists p' w', SetWindowSize p width height w = Ok (p', w')
                    /\ length (winSize p') = 4%nat)
  /\ (forall p : Connection, length (winSize p) = 4%nat ->
        (forall code a b sb dh, length (winSize (AddOption p code a b sb dh)) = 4%nat)
        /\ (forall w : World, length (winSize (fst (fst (Close p w)))) = 4%nat)
        /\ (forall input out w err p' out' w',
               processCommands p input out w = Returned err p' out' w' ->
               length (winSize p') = 4%nat)
        /\ (forall (w : World) (blen : nat) c' r,
               call_Read {| obj := p; net := w |} blen = Ok (c', r) ->
               length (winSize (obj c')) = 4%nat))
  /\ (forall (p : Connection) (w : World), length (winSize p) = 4%nat ->
        state p <> stateNotReady ->
        exists a b c d : Z,
          winSize p = [a; b; c; d]
          /\ (forall data : list Z,
                 exists w' err,
                   negotiateAboutWindowSizeOptionHandler p data w = Ok (w', err)
                   /\ written w'
                      = written w ++ [[IAC; SB; NegotiateAboutWindowSize;
                                       a; b; c; d; IAC; SE]])
          /\ (forall (X : Z) (o : telnetOption) (out : list Z),
                 state p = stateData -> ~ (250 <= X <= 255) ->
                 options p !! X = Some o ->
                 doHandler o = Some HNegotiateAboutWindowSize ->
                 exists err p' w',
                   processCommands p [IAC; DO; X] out w = Returned err p' out w'
                   /\ written w'
                      = written w ++ [[IAC; if weWill o then WILL else WONT; X];
                                      [IAC; SB; NegotiateAboutWindowSize;
                                       a; b; c; d; IAC; SE]])).
Proof.
  split; [|split].
  - intros p width height w. rewrite SetWindowSize_eq. cbv zeta.
    do 2 eexists. split; reflexivity.
  - intros p H4. repeat split.
    + intros; exact H4.
    + intros; exact H4.
    + intros input out w err p' out' w' E.
      apply processCommands_keeps in E as [_ ->]. exact H4.
    + intros w blen c' r. unfold call_Read.
      destruct (Read _ _ _); [|discriminate].
      rewrite bind_Ok. intros [= <- _]. exact H4.
  - intros p w H4 Hs.
    destruct (length_4 _ H4) as (a & b & c & d & Hws).
    exists a, b, c, d. split; [exact Hws|]. split.
    + intros data. unfold negotiateAboutWindowSizeOptionHandler.
      destruct (sendSB p NegotiateAboutWindowSize NONE (winSize p) w)
        as [w' err] eqn:E.
      exists w', err. split; [reflexivity|].
      change w' with (fst (w', err)). rewrite <- E.
      rewrite sendSB_NAWS_ready by exact Hs. rewrite Hws. reflexivity.
    + intros X o out Hd HX Ho Hh. apply takenAsOptionCode_spec in HX.
      destruct (processCommands_DO_NAWS p o X out w Hd HX Ho Hh)
        as (err & p' & w' & E & Hw & _).
      exists err, p', w'. split; [exact E|].
      rewrite Hw, Hws. reflexivity.
Qed.

Lemma window_size_buffer_after_update_witness :
  length (winSize (AddOption (with_winSize [0; 80; 0; 24] connected)
                     99 true true None None)) = 4%nat
  /\ exists a b c d : Z,
       winSize (with_winSize [0; 80; 0; 24] connected) = [a; b; c; d]
       /\ exists err p' w',
            processCommands (with_winSize [0; 80; 0; 24] connected)
              [IAC; DO; NegotiateAboutWindowSize] [] quiet
            = Returned err p' [] w'
            /\ written w'
               = written quiet ++ [[IAC; WILL; NegotiateAboutWindowSize];
                                   [IAC; SB; NegotiateAboutWindowSize;
                                    a; b; c; d; IAC; SE]].
Proof.
  destruct window_size_buffer_after_update as (_ & Hkeep & Hsend).
  split.
  - apply (Hkeep (with_winSize [0; 80; 0; 24] connected)). reflexivity.
  - destruct (Hsend (with_winSize [0; 80; 0; 24] connected) quiet)
      as (a & b & c & d & Hws & _ & Hdo); [reflexivity | discriminate |].
    exists a, b, c, d. split; [exact Hws|].
    apply (Hdo NegotiateAboutWindowSize
             {| weWill := true; peerDo := true; sbHandler := None;
                doHandler := Some HNegotiateAboutWindowSize |} []);
      [reflexivity | unfold NegotiateAboutWindowSize; lia
      | reflexivity | reflexivity].
Defined.

(** C9.  The connection [Connect] returns is ready and its window-size
    buffer is empty, not four bytes long; a peer's DO for option 31 before
    any window-size update is answered with IAC WILL 31 and then the frame
    IAC SB 31 IAC SE, without any payload byte, against the frame format
    in the handler's own comment. *)
Lemma fresh_connection_sends_empty_window_size :
  fst (Connect None) = Some connected
  /\ state connected = stateData
  /\ length (winSize connected) <> 4%nat
  /\ exists w',
       processCommands connected [IAC; DO; NegotiateAboutWindowSize] [] quiet
       = Returned None connected [] w'
       /\ written w' = [[IAC; WILL; NegotiateAboutWindowSize];
                        [IAC; SB; NegotiateAboutWindowSize; IAC; SE]].
Proof.
  split; [reflexivity|]. split; [reflexivity|]. split; [discriminate|].
  eexists. split; reflexivity.
Qed.

(** ** After Close *)

(** C8.  After [Close], whatever the state was and whatever the transport
    answers to the close, the application-facing read returns 0 bytes and
    the not-ready error, and leaves the world as it was.  And
    [processCommands] called in the NotReady state with at least one byte
    to process returns the not-ready error at the first byte: the
    connection, the output and the world are unchanged (nothing emitted,
    nothing written), and the result does not depend on the bytes. *)
Theorem not_ready_after_close :
  (forall (c : Client) (blen : nat),
      call_Read (fst (call_Close c)) blen
      = Ok (fst (call_Close c), (0%nat, [], Some ErrNotReady)))
  /\ (forall (p : Connection) (b : Z) (rest out : list Z) (w : World),
         state p = stateNotReady ->
         processCommands p (b :: rest) out w = Returned (Some ErrNotReady) p out w).
Proof.
  split.
  - intros [p w] blen. reflexivity.
  - intros p b rest out w Hs. unfold processCommands, processLoop, processByte.
    rewrite Hs. reflexivity.
Qed.

Lemma not_ready_after_close_witness :
  processCommands (fst (fst (Close connected quiet)))
    [112; 108; 97; 105; 110] [] quiet
  = Returned (Some ErrNotReady) (fst (fst (Close connected quiet))) [] quiet.
Proof.
  destruct not_ready_after_close as [_ H].
  apply (H (fst (fst (Close connected quiet))) 112 [108; 97; 105; 110] [] quiet).
  reflexivity.
Defined.

(** With no byte to process the loop body does not run, and the call
    returns nil in every state. *)
Lemma processCommands_no_input (p : Connection) (out : list Z) (w : World) :
  processCommands p [] out w = Returned None p out w.
Proof. reflexivity. Qed.

(** ** Errors of reply writes *)

(** C7.  The transport fails the first write.  For DO 99 (not
    configured) the failed reply write is forgotten: the rest of the chunk
    is processed and the read returns the later data byte with a nil
    error.  For DO 31 (window size) the error of the failed reply write is
    replaced by the result of the handler, whose own write succeeds: again
    the read returns the later data byte and no error.  For WILL 1 (echo,
    configured, no handler) the same failure stops the chunk and is
    returned with the data read so far. *)
Theorem reply_write_errors_are_dropped :
  let failing := with_wscript [(0, Some brokenPipe)] quiet in
  (exists r,
      Read connected 64 (with_incoming [([72; IAC; DO; 99; 105], None)] failing) = Ok r
      /\ rd_n r = 2%nat /\ rd_bytes r = [72; 105] /\ rd_err r = None
      /\ written (rd_world r) = [[IAC; WONT; 99]])
  /\ (exists r,
         Read connected 64
           (with_incoming [([72; IAC; DO; NegotiateAboutWindowSize; 105], None)] failing)
         = Ok r
         /\ rd_n r = 2%nat /\ rd_bytes r = [72; 105] /\ rd_err r = None
         /\ written (rd_world r)
            = [[IAC; WILL; NegotiateAboutWindowSize];
               [IAC; SB; NegotiateAboutWindowSize; IAC; SE]])
  /\ (exists r,
         Read connected 64 (with_incoming [([72; IAC; WILL; Echo; 105], None)] failing)
         = Ok r
         /\ rd_n r = 1%nat /\ rd_bytes r = [72] /\ rd_err r = Some brokenPipe
         /\ written (rd_world r) = [[IAC; DO; Echo]]).
Proof. cbv zeta. repeat split; eexists; repeat split. Qed.

(** ** The receiver of Read *)

(** C10.  A call of the application-facing read that returns leaves the
    application's struct as it was: state, option table and window-size
    buffer.  The next call therefore starts from the stored state, not
    from the state the previous call reached.  On a chunk 72 IAC followed
    by a chunk DO 1 72: the first call returns the byte 72, and its copy
    ends in the InIAC state while the stored state is still Data; the
    second call returns DO 1 72 as three data bytes and writes no reply.
    The same five bytes in one chunk give the data 72 72 and the reply
    IAC WONT 1. *)
Theorem read_works_on_a_copy :
  (forall (c c' : Client) (blen : nat) r,
      call_Read c blen = Ok (c', r) ->
      obj c' = obj c
      /\ forall blen' : nat,
           call_Read c' blen' = call_Read {| obj := obj c; net := net c' |} blen')
  /\ (let c0 := {| obj := connected;
                   net := with_incoming [([72; IAC], None); ([DO; Echo; 72], None)] quiet |} in
      exists c1 c2 r1,
        call_Read c0 64 = Ok (c1, (1%nat, [72], None))
        /\ Read (obj c0) 64 (net c0) = Ok r1
        /\ state (rd_local r1) = stateInIAC
        /\ state (obj c1) = stateData
        /\ call_Read c1 64 = Ok (c2, (3%nat, [DO; Echo; 72], None))
        /\ written (net c2) = [])
  /\ (exists r,
         Read connected 64 (with_incoming [([72; IAC; DO; Echo; 72], None)] quiet) = Ok r
         /\ rd_bytes r = [72; 72]
         /\ written (rd_world r) = [[IAC; WONT; Echo]]).
Proof.
  split; [|split].
  - intros c c' blen r. unfold call_Read.
    destruct (Read (obj c) blen (net c)) as [rr|x]; [|discriminate].
    rewrite bind_Ok. intros [= <- _]. split; reflexivity.
  - cbv zeta. do 3 eexists. repeat split.
  - eexists. repeat split.
Qed.

Lemma read_works_on_a_copy_witness :
  let c0 := {| obj := connected;
               net := with_incoming [([72; IAC], None)] quiet |} in
  let c1 := {| obj := connected; net := quiet |} in
  obj c1 = obj c0
  /\ forall blen' : nat,
       call_Read c1 blen' = call_Read {| obj := obj c0; net := net c1 |} blen'.
Proof.
  destruct read_works_on_a_copy as [H _].
  apply (H {| obj := connected; net := with_incoming [([72; IAC], None)] quiet |}
           {| obj := connected; net := quiet |} 64%nat (1%nat, [72], None)).
  reflexivity.
Defined.

(** A command cut by the end of a transport read, inside one call of the
    read: the loop goes on in the InIAC state with a fresh, empty command
    buffer, the option byte is dispatched alone, and [data[1]] panics. *)
Lemma command_cut_between_transport_reads_panics :
  Read connected 64 (with_incoming [([IAC; DO], None); ([Echo], None)] quiet)
  = Panic (IndexOutOfRange 1 1).
Proof. reflexivity. Qed.

(** ** The package's tests *)

(** The scenario of [TestConnect]: the peer sends "Hello telnet" and
    closes; then the connection is closed. *)
Example TestConnect_scenario :
  let c0 := {| obj := connected;
               net := with_incoming [(helloTelnet, None)] quiet |} in
  exists c1 c2,
    call_Read c0 64 = Ok (c1, (12%nat, helloTelnet, None))
    /\ call_Read c1 64 = Ok (c2, (0%nat, [], Some ErrEOF))
    /\ snd (call_Close c2) = None
    /\ call_Read (fst (call_Close c2)) 64
       = Ok (fst (call_Close c2), (0%nat, [], Some ErrNotReady)).
Proof. cbv zeta. do 2 eexists. repeat split. Qed.

(** The scenario of [TestAddOption]. *)
Example TestAddOption_scenario :
  let c := {| options := ∅; state := stateData; winSize := [] |} in
  options (AddOption c 88 true true None None) !! 88
  = Some {| weWill := true; peerDo := true; sbHandler := None; doHandler := None |}.
Proof. reflexivity. Qed.

(** Registering an option: the last registration for a code wins, and the
    other codes keep their entries. *)
Lemma AddOption_lookup (p : Connection) (code code' : Z) (a b : bool)
    (sb dh : option telnetOptionHandler) :
  options (AddOption p code a b sb dh) !! code'
  = if decide (code = code')
    then Some {| weWill := a; peerDo := b; sbHandler := sb; doHandler := dh |}
    else options p !! code'.
Proof. unfold AddOption. cbn. apply lookup_insert. Qed.

(** * Further properties *)

(** ** Registering options *)

Lemma AddOption_keeps (p : Connection) (code : Z) (a b : bool)
    (sb dh : option telnetOptionHandler) :
  state (AddOption p code a b sb dh) = state p
  /\ winSize (AddOption p code a b sb dh) = winSize p.
Proof. by split. Qed.

(** X1.  After two registrations of one option code the table holds the
    second entry, and the result is the same as registering the second
    alone; a registration leaves the entries of all other codes as they
    were. *)
Theorem AddOption_last_wins (p : Connection) (code : Z) (a b a' b' : bool)
    (sb dh sb' dh' : option telnetOptionHandler) :
  options (AddOption (AddOption p code a b sb dh) code a' b' sb' dh') !! code
  = Some {| weWill := a'; peerDo := b'; sbHandler := sb'; doHandler := dh' |}
  /\ (forall other : Z, other <> code ->
        options (AddOption p code a b sb dh) !! other = options p !! other)
  /\ AddOption (AddOption p code a b sb dh) code a' b' sb' dh'
     = AddOption p code a' b' sb' dh'.
Proof.
  split; [|split].
  - rewrite AddOption_lookup. by rewrite decide_True.
  - intros other Hne. rewrite AddOption_lookup. by rewrite decide_False.
  - unfold AddOption, with_options. cbn. by rewrite insert_insert_eq.
Qed.

Lemma AddOption_last_wins_witness :
  options (AddOption connected 31 true true None (Some HNegotiateAboutWindowSize))
    !! 24
  = options connected !! 24.
Proof.
  destruct (AddOption_last_wins connected 31 true true true true None
              (Some HNegotiateAboutWindowSize) None None) as (_ & H & _).
  apply H. lia.
Defined.

(** X2.  Registrations of two different option codes can be made in
    either order: the resulting connection is the same. *)
Theorem AddOption_commute (p : Connection) (c1 c2 : Z) (a1 b1 a2 b2 : bool)
    (sb1 dh1 sb2 dh2 : option telnetOptionHandler) :
  c1 <> c2 ->
  AddOption (AddOption p c1 a1 b1 sb1 dh1) c2 a2 b2 sb2 dh2
  = AddOption (AddOption p c2 a2 b2 sb2 dh2) c1 a1 b1 sb1 dh1.
Proof.
  intros Hne. unfold AddOption, with_options. cbn.
  by rewrite insert_insert_ne.
Qed.

(** ** More on negotiation *)

Lemma negotiateOption_other_verb (p : Connection) (verb X : Z) (w : World) :
  verb <> DO -> verb <> WILL -> verb <> SB ->
  negotiateOption p [IAC; verb; X] w = Ok (note_dispatch [IAC; verb; X] w, None).
Proof.
  intros H1 H2 H3. unfold negotiateOption. cbn.
  rewrite (neq_eqb _ _ H1), (neq_eqb _ _ H2), (neq_eqb _ _ H3). reflexivity.
Qed.

(** X5.  IAC WONT X or IAC DONT X received in the Data state at the start
    of a chunk, X not one of 250..255: the command is dispatched, nothing
    is written, no handler runs, no error is returned, and the connection
    is as before (state Data). *)
Theorem WONT_and_DONT_are_ignored (p : Connection) (verb X : Z) (out : list Z)
    (w : World) :
  state p = stateData -> verb = WONT \/ verb = DONT -> ~ (250 <= X <= 255) ->
  processCommands p [IAC; verb; X] out w
  = Returned None p out (note_dispatch [IAC; verb; X] w).
Proof.
  intros Hs Hv HX. apply takenAsOptionCode_spec in HX.
  rewrite processCommands_command; [| assumption | by destruct Hv as [-> | ->] | assumption].
  rewrite negotiateOption_other_verb by (destruct Hv as [-> | ->]; discriminate).
  reflexivity.
Qed.

Lemma WONT_and_DONT_are_ignored_witness :
  processCommands connected [IAC; WONT; Echo] [7] quiet
  = Returned None connected [7] (note_dispatch [IAC; WONT; Echo] quiet).
Proof.
  apply (WONT_and_DONT_are_ignored connected WONT Echo [7] quiet);
    [reflexivity | by left | unfold Echo; lia].
Defined.

(** X3.  Once [AddOption] has registered code X (not one of 250..255)
    without handlers, on any connection in the Data state and whatever the
    table held for X before, IAC DO X is answered by the single write
    IAC WILL X or IAC WONT X according to weWill, and IAC WILL X by
    IAC DO X or IAC DONT X according to peerDo; no handler runs; the call
    returns the error of that write, and with no error the connection is
    unchanged. *)
Theorem registered_option_is_answered_by_its_flags (p : Connection) (X : Z)
    (ww pd : bool) (out : list Z) (w : World) :
  state p = stateData -> ~ (250 <= X <= 255) ->
  let p' := AddOption p X ww pd None None in
  (exists q w',
      processCommands p' [IAC; DO; X] out w = Returned (nextWriteError w) q out w'
      /\ written w' = written w ++ [[IAC; if ww then WILL else WONT; X]]
      /\ handled w' = handled w
      /\ (nextWriteError w = None -> q = p'))
  /\ (exists q w',
         processCommands p' [IAC; WILL; X] out w = Returned (nextWriteError w) q out w'
         /\ written w' = written w ++ [[IAC; if pd then DO else DONT; X]]
         /\ handled w' = handled w
         /\ (nextWriteError w = None -> q = p')).
Proof.
  intros Hs HX p'. apply takenAsOptionCode_spec in HX.
  assert (Hlook : options p' !! X
                  = Some {| weWill := ww; peerDo := pd; sbHandler := None;
                            doHandler := None |}).
  { unfold p'. rewrite AddOption_lookup. by rewrite decide_True. }
  split.
  - rewrite processCommands_command by (reflexivity || assumption).
    rewrite (negotiateOption_DO_configured (with_state stateInIAC p') X _ w Hlook).
    cbn [doHandler weWill].
    destruct (nextWriteError w); do 2 eexists; repeat split; discriminate.
  - rewrite processCommands_command by (reflexivity || assumption).
    rewrite (negotiateOption_WILL_configured (with_state stateInIAC p') X _ w Hlook).
    cbn [peerDo].
    destruct (nextWriteError w); do 2 eexists; repeat split; discriminate.
Qed.

Lemma registered_option_is_answered_by_its_flags_witness :
  exists q w',
    processCommands (AddOption connected NegotiateAboutWindowSize false true None None)
      [IAC; DO; NegotiateAboutWindowSize] [] quiet
    = Returned (nextWriteError quiet) q [] w'
    /\ written w' = written quiet ++ [[IAC; WONT; NegotiateAboutWindowSize]]
    /\ handled w' = handled quiet
    /\ (nextWriteError quiet = None
        -> q = AddOption connected NegotiateAboutWindowSize false true None None).
Proof.
  destruct (registered_option_is_answered_by_its_flags connected
              NegotiateAboutWindowSize false true [] quiet) as [H _];
    [reflexivity | unfold NegotiateAboutWindowSize; lia | exact H].
Defined.

(** ** The table Connect builds *)

Lemma connected_lookup (X : Z) : options connected !! X = defaultEntry X.
Proof.
  unfold defaultEntry, plainOption.
  change (options connected) with
    (options (AddOption (AddOption (AddOption (AddOption (AddOption (AddOption
       (AddOption (AddOption
          {| options := ∅; state := stateNotReady; winSize := [] |}
          BinaryTransmission false false None None)
          Echo false true None None)
          SuppressGoAhead true true None None)
          Status false false None None)
          TerminalType true true (Some HTerminalType) None)
          NegotiateAboutWindowSize true true None (Some HNegotiateAboutWindowSize))
          TerminalSpeed true true (Some HTerminalSpeed) None)
          RemoteFlowControl false false None None)).
  rewrite !AddOption_lookup.
  unfold BinaryTransmission, Echo, SuppressGoAhead, Status, TerminalType,
    NegotiateAboutWindowSize, TerminalSpeed, RemoteFlowControl.
  repeat (case_decide; [subst; reflexivity|]).
  repeat match goal with
         | |- context [X =? ?c] => rewrite (neq_eqb X c) by congruence
         end.
  apply lookup_empty.
Qed.

(** X4.  The connection [Connect] returns, for every option byte X not
    one of 250..255: IAC DO X is answered first with IAC WILL X when X is
    3, 24, 31 or 32 and with IAC WONT X otherwise, followed by the
    window-size frame (empty payload) only for X = 31; IAC WILL X is
    answered with the single write IAC DO X when X is 1, 3, 24, 31 or 32
    and IAC DONT X otherwise. *)
Theorem default_policy (X : Z) (out : list Z) (w : World) :
  ~ (250 <= X <= 255) ->
  (exists err q w' more,
      processCommands connected [IAC; DO; X] out w = Returned err q out w'
      /\ written w'
         = written w
           ++ [IAC; if (X =? 3) || (X =? 24) || (X =? 31) || (X =? 32)
                    then WILL else WONT; X] :: more
      /\ more = if X =? 31 then [[IAC; SB; 31; IAC; SE]] else [])
  /\ (exists err q w',
         processCommands connected [IAC; WILL; X] out w = Returned err q out w'
         /\ written w'
            = written w
              ++ [[IAC; if (X =? 1) || (X =? 3) || (X =? 24) || (X =? 31) || (X =? 32)
                        then DO else DONT; X]]).
Proof.
  intros HX. apply takenAsOptionCode_spec in HX.
  pose proof (connected_lookup X) as Hlook. unfold defaultEntry in Hlook.
  unfold BinaryTransmission, Echo, SuppressGoAhead, Status, TerminalType,
    NegotiateAboutWindowSize, TerminalSpeed, RemoteFlowControl in Hlook.
  split.
  - rewrite processCommands_command by (reflexivity || assumption).
    repeat match type of Hlook with
           | context [X =? ?c] => destruct (Z.eqb_spec X c) as [->|?]
           end;
      try (rewrite (negotiateOption_DO_configured
                      (with_state stateInIAC connected) _ _ w Hlook));
      try (rewrite (negotiateOption_DO_unconfigured
                      (with_state stateInIAC connected) _ w Hlook));
      cbn -[nextWriteError conn_Write note_dispatch];
      try (destruct (nextWriteError w); do 4 eexists; repeat split; fail).
    unfold callHandler, handlerFunc, negotiateAboutWindowSizeOptionHandler,
      sendSB, Write. cbn.
    match goal with
    | |- context [match ?e with Some _ => _ | None => _ end] => destruct e
    end; do 4 eexists; (split; [reflexivity|]); cbn;
      rewrite <- app_assoc; split; reflexivity.
  - rewrite processCommands_command by (reflexivity || assumption).
    repeat match type of Hlook with
           | context [X =? ?c] => destruct (Z.eqb_spec X c) as [->|?]
           end;
      try (rewrite (negotiateOption_WILL_configured
                      (with_state stateInIAC connected) _ _ w Hlook));
      try (rewrite (negotiateOption_WILL_unconfigured
                      (with_state stateInIAC connected) _ w Hlook));
      cbn -[nextWriteError conn_Write note_dispatch];
      try (destruct (nextWriteError w)); do 3 eexists; repeat split.
Qed.

Lemma default_policy_witness :
  exists err q w',
    processCommands connected [IAC; WILL; Echo] [] quiet = Returned err q [] w'
    /\ written w'
       = written quiet
         ++ [[IAC; if (Echo =? 1) || (Echo =? 3) || (Echo =? 24) || (Echo =? 31)
                      || (Echo =? 32)
                   then DO else DONT; Echo]].
Proof.
  destruct (default_policy Echo [] quiet) as [_ H]; [unfold Echo; lia | exact H].
Defined.

(** ** A connection that is not ready *)

(** X17.  On a connection that is not ready: [Write] returns 0 and the
    not-ready error and leaves the world untouched; [SetWindowSize] stores
    the four bytes, sends nothing and reports nothing; but
    [DisableRemoteEcho] still writes IAC DONT 1 to the transport. *)
Theorem senders_when_not_ready (p : Connection) (w : World) :
  state p = stateNotReady ->
  (forall b : list Z, Write p b w = (w, (0, Some ErrNotReady)))
  /\ (forall width height : Z,
         SetWindowSize p width height w
         = Ok (with_winSize (sizeBytes width height) p, w))
  /\ written (fst (DisableRemoteEcho p w)) = written w ++ [[IAC; DONT; Echo]].
Proof.
  intros Hs. split; [|split].
  - intros b. unfold Write. by rewrite Hs.
  - intros width height. rewrite SetWindowSize_eq. cbv zeta.
    unfold sendSB, Write. cbn. by rewrite Hs.
  - reflexivity.
Qed.

Lemma senders_when_not_ready_witness :
  Write (fst (fst (Close connected quiet))) [104; 105] quiet
  = (quiet, (0, Some ErrNotReady)).
Proof.
  destruct (senders_when_not_ready (fst (fst (Close connected quiet))) quiet)
    as [H _]; [reflexivity | apply H].
Defined.

(** ** Window sizes of any magnitude *)

Lemma uint16_mod (v : Z) : uint16 v = v mod 65536.
Proof.
  unfold uint16. change 65535 with (Z.ones 16).
  rewrite Z.land_ones by lia. reflexivity.
Qed.

(** X18.  [SetWindowSize] never panics, whatever the buffer held and
    whatever integers it is given: it stores four bytes, each in [0, 256),
    which are the big-endian encodings of width mod 65536 and
    height mod 65536. *)
Theorem window_size_wraps (p : Connection) (w : World) (width height : Z) :
  exists (wh wl hh hl : Z) (w' : World),
    SetWindowSize p width height w = Ok (with_winSize [wh; wl; hh; hl] p, w')
    /\ 256 * wh + wl = width mod 65536
    /\ 256 * hh + hl = height mod 65536
    /\ 0 <= wh < 256 /\ 0 <= wl < 256 /\ 0 <= hh < 256 /\ 0 <= hl < 256.
Proof.
  rewrite SetWindowSize_eq. cbv zeta. unfold sizeBytes.
  assert (Hw : 0 <= uint16 width <= 65535)
    by (rewrite uint16_mod; pose proof (Z.mod_pos_bound width 65536); lia).
  assert (Hh : 0 <= uint16 height <= 65535)
    by (rewrite uint16_mod; pose proof (Z.mod_pos_bound height 65536); lia).
  rewrite !byte_high, !byte_mod by assumption.
  rewrite <- !uint16_mod.
  do 5 eexists. split; [reflexivity|].
  pose proof (Z.div_mod (uint16 width) 256).
  pose proof (Z.div_mod (uint16 height) 256).
  pose proof (Z.mod_pos_bound (uint16 width) 256).
  pose proof (Z.mod_pos_bound (uint16 height) 256).
  assert (0 <= uint16 width / 256 < 256)
    by (split; [apply Z.div_pos; lia | apply Z.div_lt_upper_bound; lia]).
  assert (0 <= uint16 height / 256 < 256)
    by (split; [apply Z.div_pos; lia | apply Z.div_lt_upper_bound; lia]).
  lia.
Qed.

(** The sizes the README's [getSize] reports on failure. *)
Example window_size_minus_one :
  SetWindowSize connected (-1) (-1) quiet
  = Ok (with_winSize [255; 255; 255; 255] connected,
        fst (conn_Write quiet [IAC; SB; 31; 255; 255; 255; 255; IAC; SE])).
Proof. reflexivity. Qed.

(** ** Sub-negotiation blocks *)

Lemma processByte_InSB_plain (p : Connection) (cb out : list Z) (w : World) (b : Z) :
  state p = stateInSB -> b <> IAC ->
  processByte p cb out w b = Running p (cb ++ [b]) out w.
Proof.
  intros Hs Hb. unfold processByte. rewrite Hs, (neq_eqb _ _ Hb). reflexivity.
Qed.

Lemma with_state_InSB (p : Connection) :
  state p = stateInSB -> with_state stateInSB p = p.
Proof. intros <-. apply with_state_same. Qed.

Lemma processLoop_InSB_body (body : list Z) :
  forall (rest : list Z) (p : Connection) (cb out : list Z) (w : World),
    state p = stateInSB ->
    processLoop (escapeIAC body ++ rest) p cb out w
    = processLoop rest p (cb ++ escapeIAC body) out w.
Proof.
  induction body as [|b body IH]; intros rest p cb out w Hs.
  - cbn. by rewrite app_nil_r.
  - unfold escapeIAC. cbn [flat_map]. fold (escapeIAC body).
    destruct (Z.eqb_spec b IAC) as [->|Hb].
    + cbn [app processLoop]. unfold processByte at 1. rewrite Hs. cbn.
      rewrite with_state_twice, (with_state_InSB p Hs), IH by assumption.
      f_equal. by rewrite <- !app_assoc.
    + cbn [app processLoop]. rewrite processByte_InSB_plain by assumption.
      rewrite IH by assumption. f_equal. by rewrite <- !app_assoc.
Qed.

Lemma processByte_InIAC_SB (p : Connection) (cb out : list Z) (w : World) :
  state p = stateInIAC ->
  processByte p cb out w SB = Running (with_state stateInSB p) (cb ++ [SB]) out w.
Proof. intros Hs. unfold processByte. rewrite Hs. reflexivity. Qed.

Lemma processByte_InSB_IAC (p : Connection) (cb out : list Z) (w : World) :
  state p = stateInSB ->
  processByte p cb out w IAC = Running (with_state stateEscIAC p) (cb ++ [IAC]) out w.
Proof. intros Hs. unfold processByte. rewrite Hs. reflexivity. Qed.

Lemma processByte_EscIAC_SE (p : Connection) (cb out : list Z) (w : World) :
  state p = stateEscIAC ->
  processByte p cb out w SE = dispatch p (with_state stateData p) (cb ++ [SE]) out w.
Proof. intros Hs. unfold processByte. rewrite Hs. reflexivity. Qed.

(** A sub-negotiation met in the Data state is appended to the command
    buffer and the buffer is handed to [negotiateOption] once. *)
Lemma processLoop_subnegotiation (body rest : list Z) (p : Connection)
    (cb out : list Z) (w : World) :
  state p = stateData ->
  processLoop (subnegotiation body ++ rest) p cb out w
  = match negotiateOption (with_state stateEscIAC p) (cb ++ subnegotiation body) w with
    | Panic x => Crashed x
    | Ok (w', Some err) => Failed err (with_state stateEscIAC p) out w'
    | Ok (w', None) => processLoop rest p [] out w'
    end.
Proof.
  intros Hs. unfold subnegotiation. cbn [app processLoop].
  rewrite processByte_Data_IAC by assumption.
  rewrite processByte_InIAC_SB by reflexivity.
  rewrite <- app_assoc.
  rewrite processLoop_InSB_body by reflexivity.
  cbn [app processLoop].
  rewrite processByte_InSB_IAC by reflexivity.
  rewrite processByte_EscIAC_SE by reflexivity.
  unfold dispatch. rewrite !with_state_twice, (with_state_Data p Hs).
  rewrite <- !app_assoc. cbn [app].
  destruct (negotiateOption _ _ _) as [[w' [err|]]|x]; reflexivity.
Qed.

Lemma processCommands_subnegotiation (body : list Z) (p : Connection)
    (out : list Z) (w : World) :
  state p = stateData ->
  processCommands p (subnegotiation body) out w
  = match negotiateOption (with_state stateEscIAC p) (subnegotiation body) w with
    | Panic x => Panicked x
    | Ok (w', Some err) => Returned (Some err) (with_state stateEscIAC p) out w'
    | Ok (w', None) => Returned None p out w'
    end.
Proof.
  intros Hs. unfold processCommands.
  rewrite <- (app_nil_r (subnegotiation body)) at 1.
  rewrite processLoop_subnegotiation by assumption. cbn [app].
  destruct (negotiateOption _ _ _) as [[w' [err|]]|x]; reflexivity.
Qed.

(** The same for a three-byte negotiation command. *)
Lemma processLoop_negotiation (verb X : Z) (rest : list Z) (p : Connection)
    (cb out : list Z) (w : World) :
  state p = stateData -> isVerb verb = true -> takenAsOptionCode X = true ->
  processLoop ([IAC; verb; X] ++ rest) p cb out w
  = match negotiateOption (with_state stateInIAC p) (cb ++ [IAC; verb; X]) w with
    | Panic x => Crashed x
    | Ok (w', Some err) => Failed err (with_state stateInIAC p) out w'
    | Ok (w', None) => processLoop rest p [] out w'
    end.
Proof.
  intros Hs Hv HX. cbn [app processLoop].
  rewrite processByte_Data_IAC by assumption.
  rewrite processByte_InIAC_verb by (reflexivity || assumption).
  rewrite processByte_InIAC_option by (reflexivity || assumption).
  unfold dispatch. rewrite with_state_twice, (with_state_Data p Hs).
  rewrite <- !app_assoc. cbn [app].
  destruct (negotiateOption _ _ _) as [[w' [err|]]|x]; reflexivity.
Qed.

Lemma negotiateOption_SB (p : Connection) (data : list Z) (code : Z) (w : World) :
  data !! 1%nat = Some SB -> data !! 2%nat = Some code ->
  negotiateOption p data w
  = match options p !! code with
    | Some o =>
        match sbHandler o with
        | Some h => callHandler h p data (note_dispatch data w)
        | None => Ok (note_dispatch data w, None)
        end
    | None => Ok (note_dispatch data w, None)
    end.
Proof.
  intros H1 H2. unfold negotiateOption, index. rewrite H1, H2, !bind_Ok.
  reflexivity.
Qed.

Lemma subnegotiation_index (body : list Z) :
  subnegotiation body !! 1%nat = Some SB
  /\ subnegotiation body !! 2%nat = Some (subnegotiationCode body)
  /\ exists b3, subnegotiation body !! 3%nat = Some b3.
Proof.
  unfold subnegotiation, subnegotiationCode.
  destruct body as [|c body]; [cbn; eauto|].
  unfold escapeIAC. cbn [flat_map hd]. fold (escapeIAC body).
  destruct (Z.eqb_spec c IAC) as [->|Hc]; [cbn; eauto|].
  destruct body as [|d body]; [cbn; eauto|].
  unfold escapeIAC. cbn [flat_map]. destruct (d =? IAC); cbn; eauto.
Qed.

Lemma subnegotiation_operation (code op : Z) (extra : list Z) :
  code <> IAC ->
  subnegotiation (code :: op :: extra) !! 3%nat = Some op.
Proof.
  intros Hc. unfold subnegotiation, escapeIAC. cbn [flat_map].
  rewrite (neq_eqb _ _ Hc). destruct (Z.eqb_spec op IAC) as [->|_]; reflexivity.
Qed.

Lemma callHandler_total (h : telnetOptionHandler) (p : Connection)
    (data : list Z) (w : World) (b3 : Z) :
  data !! 3%nat = Some b3 ->
  exists w' err, callHandler h p data w = Ok (w', err).
Proof.
  intros H3. unfold callHandler, handlerFunc, terminalTypeOptionHandler,
    terminalSpeedOptionHandler, negotiateAboutWindowSizeOptionHandler, index.
  destruct h; rewrite ?H3, ?bind_Ok; repeat case_match;
    try match goal with
        | |- context [sendSB ?p ?c ?o ?d ?w] => destruct (sendSB p c o d w)
        end; eauto.
Qed.

(** The engine on a sub-negotiation buffer with a fourth byte returns,
    whatever the table holds. *)
Lemma negotiateOption_total_SB (p : Connection) (data : list Z) (w : World) (b3 : Z) :
  data !! 1%nat = Some SB -> data !! 3%nat = Some b3 ->
  exists w' err, negotiateOption p data w = Ok (w', err).
Proof.
  intros H1 H3.
  destruct (lookup_lt_is_Some_2 data 2) as [code H2];
    [apply lookup_lt_Some in H3; lia|].
  rewrite (negotiateOption_SB _ _ _ w H1 H2).
  destruct (options p !! code) as [o|]; [|eauto].
  destruct (sbHandler o) as [h|]; [|eauto].
  eapply callHandler_total. exact H3.
Qed.

(** X6.  A sub-negotiation block IAC SB body IAC SE (bytes 255 of the
    body doubled) received in the Data state at the start of a chunk, for
    any body and any option table: processing does not panic, emits no
    plain data, and dispatches the block to the engine exactly once, as
    received (doubled bytes included); with no error the connection is
    back as it was (state Data), and with an error the state is EscIAC. *)
Theorem subnegotiation_is_dispatched_once (p : Connection) (body out : list Z)
    (w : World) :
  state p = stateData ->
  exists err q w',
    processCommands p (subnegotiation body) out w = Returned err q out w'
    /\ dispatched w' = dispatched w ++ [subnegotiation body]
    /\ (err = None -> q = p)
    /\ (forall e, err = Some e -> state q = stateEscIAC).
Proof.
  intros Hs. rewrite processCommands_subnegotiation by assumption.
  destruct (subnegotiation_index body) as (H1 & H2 & b3 & H3).
  destruct (negotiateOption (with_state stateEscIAC p) (subnegotiation body) w)
    as [[w' err]|x] eqn:E.
  - pose proof (negotiateOption_dispatched _ _ _ _ _ E) as Hd.
    destruct err as [e|]; do 3 eexists; repeat split; try exact Hd;
      try discriminate; intros; reflexivity.
  - exfalso. rewrite (negotiateOption_SB _ _ _ w H1 H2) in E.
    destruct (options _ !! _) as [o|]; [|discriminate].
    destruct (sbHandler o) as [h|]; [|discriminate].
    destruct (callHandler_total h (with_state stateEscIAC p) (subnegotiation body)
                (note_dispatch (subnegotiation body) w) b3 H3) as (w' & err & E').
    congruence.
Qed.

Lemma subnegotiation_is_dispatched_once_witness :
  exists err q w',
    processCommands connected (subnegotiation [TerminalType; SEND]) [] quiet
    = Returned err q [] w'
    /\ dispatched w' = dispatched quiet ++ [subnegotiation [TerminalType; SEND]]
    /\ (err = None -> q = connected)
    /\ (forall e, err = Some e -> state q = stateEscIAC).
Proof.
  apply (subnegotiation_is_dispatched_once connected [TerminalType; SEND] [] quiet).
  reflexivity.
Defined.

(** X7.  A sub-negotiation whose option code (the first byte of the
    body, 255 for an empty body) is not configured, or is configured
    without a sub-negotiation handler, is dropped: dispatched, nothing
    written, no handler, nil returned, connection unchanged. *)
Theorem unhandled_subnegotiation_is_ignored (p : Connection) (body out : list Z)
    (w : World) :
  state p = stateData ->
  (options p !! subnegotiationCode body = None
   \/ exists o, options p !! subnegotiationCode body = Some o /\ sbHandler o = None) ->
  processCommands p (subnegotiation body) out w
  = Returned None p out (note_dispatch (subnegotiation body) w).
Proof.
  intros Hs Hno. rewrite processCommands_subnegotiation by assumption.
  destruct (subnegotiation_index body) as (H1 & H2 & _).
  rewrite (negotiateOption_SB _ _ _ w H1 H2). cbn [options with_state].
  destruct Hno as [-> | (o & -> & ->)]; reflexivity.
Qed.

Lemma unhandled_subnegotiation_is_ignored_witness :
  processCommands connected (subnegotiation [31; 0; 80; 0; 24]) [] quiet
  = Returned None connected []
      (note_dispatch (subnegotiation [31; 0; 80; 0; 24]) quiet).
Proof.
  apply (unhandled_subnegotiation_is_ignored connected [31; 0; 80; 0; 24] [] quiet).
  - reflexivity.
  - right. eexists. split; reflexivity.
Defined.

(** X8.  IAC SB code SEND ... IAC SE for a code (not 255) whose
    sub-negotiation handler is the terminal-type handler: with TERM set,
    exactly one write, IAC SB 24 IS, the bytes of TERM as they are, IAC SE,
    and the call returns the error of that write; with TERM unset, nothing
    is written and nil is returned.  With the terminal-speed handler:
    exactly one write, IAC SB 32 IS "115200,115200" IAC SE. *)
Theorem terminal_queries (p : Connection) (code : Z) (o : telnetOption)
    (extra out : list Z) (w : World) :
  state p = stateData -> code <> IAC ->
  options p !! code = Some o ->
  let query := subnegotiation (code :: SEND :: extra) in
  (sbHandler o = Some HTerminalType ->
     match TERM w with
     | Some term =>
         exists q w',
           processCommands p query out w = Returned (nextWriteError w) q out w'
           /\ written w' = written w ++ [[IAC; SB; TerminalType; IS] ++ term ++ [IAC; SE]]
     | None =>
         exists w',
           processCommands p query out w = Returned None p out w'
           /\ written w' = written w
     end)
  /\ (sbHandler o = Some HTerminalSpeed ->
        exists q w',
          processCommands p query out w = Returned (nextWriteError w) q out w'
          /\ written w' = written w ++ [[IAC; SB; TerminalSpeed; IS] ++ speed ++ [IAC; SE]]).
Proof.
  intros Hs Hc Ho query. subst query.
  destruct (subnegotiation_index (code :: SEND :: extra)) as (H1 & H2 & _).
  pose proof (subnegotiation_operation code SEND extra Hc) as H3.
  split; intros Hh; rewrite processCommands_subnegotiation by assumption;
    rewrite (negotiateOption_SB _ _ _ w H1 H2); cbn [options with_state];
    unfold subnegotiationCode; cbn [hd]; rewrite Ho, Hh;
    unfold callHandler, handlerFunc, terminalTypeOptionHandler,
      terminalSpeedOptionHandler, index; rewrite H3, bind_Ok;
    change (SEND =? SEND) with true; cbv iota;
    generalize (subnegotiation (code :: SEND :: extra)); intros frame.
  - change (TERM (note_handler HTerminalType frame (note_dispatch frame w)))
      with (TERM w).
    destruct (TERM w) as [term|].
    + unfold sendSB, Write, nextWriteError. cbn.
      destruct (wscript w) as [|[n [e|]] ?]; cbn; do 2 eexists; split; reflexivity.
    + eexists. split; reflexivity.
  - unfold sendSB, Write, nextWriteError. cbn.
    destruct (wscript w) as [|[n [e|]] ?]; cbn; do 2 eexists; split; reflexivity.
Qed.

(** X9.  A sub-negotiation for a code handled by the terminal-type or the
    terminal-speed handler whose operation byte is not SEND (IS, for one)
    gets no answer: nothing is written and nil is returned. *)
Theorem other_operations_get_no_answer (p : Connection) (code op : Z)
    (o : telnetOption) (extra out : list Z) (w : World) :
  state p = stateData -> code <> IAC -> op <> SEND ->
  options p !! code = Some o ->
  sbHandler o = Some HTerminalType \/ sbHandler o = Some HTerminalSpeed ->
  exists w',
    processCommands p (subnegotiation (code :: op :: extra)) out w
    = Returned None p out w'
    /\ written w' = written w.
Proof.
  intros Hs Hc Hop Ho Hh.
  destruct (subnegotiation_index (code :: op :: extra)) as (H1 & H2 & _).
  pose proof (subnegotiation_operation code op extra Hc) as H3.
  rewrite processCommands_subnegotiation by assumption.
  rewrite (negotiateOption_SB _ _ _ w H1 H2); cbn [options with_state].
  unfold subnegotiationCode; cbn [hd]. rewrite Ho.
  destruct Hh as [-> | ->];
    unfold callHandler, handlerFunc, terminalTypeOptionHandler,
      terminalSpeedOptionHandler, index; rewrite H3, bind_Ok;
    rewrite (neq_eqb _ _ Hop); eexists; split; reflexivity.
Qed.

(** ** The application-facing read *)

Lemma ReadLoop_contract (rs : list (list Z * option error)) :
  forall (p : Connection) (out : list Z) (blen : nat) (w : World) (r : ReadResult),
    ReadLoop rs p out blen w = Ok r ->
    length (rd_bytes r) = rd_n r
    /\ (rd_n r <= blen)%nat
    /\ (rd_err r = None -> (0 < rd_n r)%nat).
Proof.
  induction rs as [|[raw err] rs IH]; intros p out blen w r; cbn [ReadLoop].
  - intros [= <-]. cbn. repeat split; [lia | discriminate].
  - destruct (0 <? length (take bufferSize raw))%nat.
    + destruct (processCommands _ _ _ _) as [[perr|] p' out' w'|x];
        [| |discriminate].
      * intros [= <-]. cbn. rewrite length_take. repeat split; [lia.. | discriminate].
      * destruct (Nat.ltb_spec 0 (blen `min` length out')).
        -- intros [= <-]. cbn. rewrite length_take. repeat split; lia.
        -- destruct err; [|apply IH].
           intros [= <-]. cbn. repeat split; [lia.. | discriminate].
    + destruct err; [|apply IH].
      intros [= <-]. cbn. repeat split; [lia | discriminate].
Qed.

(** X20.  Whenever [Read] returns: it returns exactly [n] bytes, [n] is at
    most the length of the caller's slice, and a nil error comes only
    with at least one byte. *)
Theorem Read_contract (p : Connection) (blen : nat) (w : World) (r : ReadResult) :
  Read p blen w = Ok r ->
  length (rd_bytes r) = rd_n r
  /\ (rd_n r <= blen)%nat
  /\ (rd_err r = None -> (0 < rd_n r)%nat).
Proof.
  unfold Read. destruct (state p); try apply ReadLoop_contract.
  intros [= <-]. cbn. repeat split; [lia | discriminate].
Qed.

Lemma Read_contract_witness :
  length [72] = 1%nat /\ (1 <= 64)%nat /\ (@None error = None -> (0 < 1)%nat).
Proof.
  apply (Read_contract connected 64 (with_incoming [([72; IAC], None)] quiet)
           {| rd_n := 1; rd_bytes := [72]; rd_err := None;
              rd_local := with_state stateInIAC connected; rd_world := quiet |}).
  reflexivity.
Defined.

(** X21.  [Read] on a ready connection in the Data state whose next
    transport read gives a non-empty chunk without the byte 255 (at most
    [bufferSize] bytes), into a non-empty slice: it returns the first
    [min(len(b), len(chunk))] bytes of the chunk and a nil error.  The
    bytes of the chunk beyond the slice are dropped (the next read starts
    at the next chunk), and so is an error the transport returned together
    with the chunk. *)
Theorem Read_plain_chunk (p : Connection) (blen : nat) (w : World)
    (d : list Z) (e : option error) (rest : list (list Z * option error)) :
  state p = stateData -> incoming w = (d, e) :: rest ->
  Forall (fun b => b <> IAC) d -> d <> [] -> (length d <= bufferSize)%nat ->
  (0 < blen)%nat ->
  Read p blen w
  = Ok {| rd_n := blen `min` length d; rd_bytes := take blen d; rd_err := None;
          rd_local := p; rd_world := with_incoming rest w |}.
Proof.
  intros Hs Hin Hplain Hne Hlen Hb. unfold Read. rewrite Hs, Hin. cbn [ReadLoop].
  rewrite take_ge by exact Hlen.
  assert (Hpos : (0 <? length d)%nat = true)
    by (apply Nat.ltb_lt; destruct d; [done | cbn; lia]).
  rewrite Hpos. unfold processCommands.
  rewrite processLoop_plain by assumption. cbn [app].
  assert (Hmin : (0 <? blen `min` length d)%nat = true)
    by (apply Nat.ltb_lt; apply Nat.ltb_lt in Hpos; lia).
  rewrite Hmin. f_equal. f_equal.
  destruct (Nat.le_ge_cases blen (length d)).
  - rewrite Nat.min_l by assumption. reflexivity.
  - rewrite Nat.min_r by assumption. by rewrite !take_ge.
Qed.

Lemma Read_plain_chunk_witness :
  Read connected 3
    (with_incoming [([104; 101; 108; 108; 111], Some ErrEOF)] quiet)
  = Ok {| rd_n := 3 `min` length [104; 101; 108; 108; 111];
          rd_bytes := take 3 [104; 101; 108; 108; 111]; rd_err := None;
          rd_local := connected;
          rd_world := with_incoming []
                        (with_incoming [([104; 101; 108; 108; 111], Some ErrEOF)] quiet) |}.
Proof.
  apply (Read_plain_chunk connected 3
           (with_incoming [([104; 101; 108; 108; 111], Some ErrEOF)] quiet)
           [104; 101; 108; 108; 111] (Some ErrEOF) []);
    [reflexivity | reflexivity | repeat constructor; discriminate | discriminate
    | unfold bufferSize; cbn; lia | lia].
Defined.

Lemma with_incoming_same (w : World) : with_incoming (incoming w) w = w.
Proof. by destruct w. Qed.

Lemma ReadLoop_zero_buffer (rs : list (list Z * option error)) :
  Forall (fun c => Forall (fun b => b <> IAC) (fst c) /\ snd c = None) rs ->
  forall (p : Connection) (out : list Z) (w : World),
    state p = stateData -> incoming w = rs ->
    ReadLoop rs p out 0 w
    = Ok {| rd_n := 0; rd_bytes := []; rd_err := Some ErrEOF;
            rd_local := p; rd_world := with_incoming [] w |}.
Proof.
  induction 1 as [|[raw err] rs [Hplain Herr] _ IH]; intros p out w Hs Hin;
    cbn [ReadLoop].
  - by rewrite <- Hin, with_incoming_same.
  - cbn in Hplain, Herr. subst err.
    destruct (0 <? length (take bufferSize raw))%nat.
    + unfold processCommands.
      rewrite processLoop_plain by (try assumption; by apply Forall_take).
      cbn [Nat.min Nat.ltb Nat.leb]. rewrite IH by (assumption || reflexivity).
      reflexivity.
    + rewrite IH by (assumption || reflexivity). reflexivity.
Qed.

(** X22.  [Read] into a slice of length 0, on a connection in the Data
    state and a transport whose remaining chunks are plain data without
    errors: the call consumes every chunk, returns none of the data, and
    ends with 0 bytes and the end-of-stream error. *)
Theorem Read_into_empty_slice (p : Connection) (w : World) :
  state p = stateData ->
  Forall (fun c => Forall (fun b => b <> IAC) (fst c) /\ snd c = None) (incoming w) ->
  Read p 0 w
  = Ok {| rd_n := 0; rd_bytes := []; rd_err := Some ErrEOF;
          rd_local := p; rd_world := with_incoming [] w |}.
Proof.
  intros Hs Hall. unfold Read. rewrite Hs.
  by apply ReadLoop_zero_buffer.
Qed.

Lemma Read_into_empty_slice_witness :
  Read connected 0 (with_incoming [([104; 105], None); ([33], None)] quiet)
  = Ok {| rd_n := 0; rd_bytes := []; rd_err := Some ErrEOF;
          rd_local := connected;
          rd_world := with_incoming []
                        (with_incoming [([104; 105], None); ([33], None)] quiet) |}.
Proof.
  apply (Read_into_empty_slice connected
           (with_incoming [([104; 105], None); ([33], None)] quiet)).
  - reflexivity.
  - repeat constructor; discriminate.
Defined.

(** ** A command cut by the end of a chunk *)

(** X11.  [processCommands] entered in the InIAC state (the previous chunk
    ended inside a command; the command buffer starts empty again): a
    first byte outside 250..255 is dispatched alone and the call panics
    with index out of range [1] with length 1; a verb followed by a byte
    outside 250..255 panics with index out of range [2] with length 2. *)
Theorem cut_command_panics (p : Connection) (rest out : list Z) (w : World) :
  state p = stateInIAC ->
  (forall b : Z, ~ (250 <= b <= 255) ->
      processCommands p (b :: rest) out w = Panicked (IndexOutOfRange 1 1))
  /\ (forall verb X : Z, isVerb verb = true -> ~ (250 <= X <= 255) ->
         processCommands p (verb :: X :: rest) out w
         = Panicked (IndexOutOfRange 2 2)).
Proof.
  intros Hs. split.
  - intros b Hb%takenAsOptionCode_spec. unfold processCommands. cbn [processLoop].
    rewrite processByte_InIAC_option by assumption. reflexivity.
  - intros verb X Hv HX%takenAsOptionCode_spec. unfold processCommands.
    cbn [processLoop].
    rewrite processByte_InIAC_verb by assumption.
    rewrite processByte_InIAC_option by assumption. reflexivity.
Qed.

Lemma cut_command_panics_witness :
  processCommands (with_state stateInIAC connected) [DO; Echo; 72] [] quiet
  = Panicked (IndexOutOfRange 2 2).
Proof.
  destruct (cut_command_panics (with_state stateInIAC connected) [72] [] quiet)
    as [_ H]; [reflexivity|].
  apply H; [reflexivity | unfold Echo; lia].
Defined.

(** ** The end of a sub-negotiation *)

Lemma processLoop_EscIAC_run (mid : list Z) :
  Forall (fun b => b <> IAC /\ b <> SE) mid ->
  forall (rest : list Z) (p : Connection) (cb out : list Z) (w : World),
    state p = stateEscIAC ->
    processLoop (mid ++ rest) p cb out w = processLoop rest p (cb ++ mid) out w.
Proof.
  induction 1 as [|b mid [Hb1 Hb2] _ IH]; intros rest p cb out w Hs.
  - cbn. by rewrite app_nil_r.
  - cbn [app processLoop]. unfold processByte. rewrite Hs.
    rewrite (neq_eqb _ _ Hb1), (neq_eqb _ _ Hb2).
    rewrite IH by assumption. f_equal. by rewrite <- app_assoc.
Qed.

(** X10.  Inside a sub-negotiation, after an IAC followed by a byte that is
    neither IAC nor SE, the demultiplexer stays in the EscIAC state: the
    following bytes are collected, and the first byte 240 (SE), without an
    IAC before it, ends the block; the whole buffer is dispatched once. *)
Theorem lone_SE_ends_the_block (p : Connection) (body mid out : list Z)
    (b : Z) (w : World) :
  state p = stateData -> b <> IAC -> b <> SE ->
  Forall (fun c => c <> IAC /\ c <> SE) mid ->
  let block := [IAC; SB] ++ escapeIAC body ++ [IAC; b] ++ mid ++ [SE] in
  processCommands p block out w
  = match negotiateOption (with_state stateEscIAC p) block w with
    | Panic x => Panicked x
    | Ok (w', Some err) => Returned (Some err) (with_state stateEscIAC p) out w'
    | Ok (w', None) => Returned None p out w'
    end.
Proof.
  intros Hs Hb1 Hb2 Hmid block. subst block. unfold processCommands.
  cbn [app processLoop].
  rewrite processByte_Data_IAC by assumption.
  rewrite processByte_InIAC_SB by reflexivity.
  rewrite processLoop_InSB_body by reflexivity.
  cbn [app processLoop].
  rewrite processByte_InSB_IAC by reflexivity.
  unfold processByte at 1. cbn [state with_state].
  rewrite (neq_eqb _ _ Hb1), (neq_eqb _ _ Hb2).
  rewrite processLoop_EscIAC_run by (assumption || reflexivity).
  cbn [processLoop].
  rewrite processByte_EscIAC_SE by reflexivity.
  unfold dispatch. rewrite !with_state_twice, (with_state_Data p Hs).
  rewrite <- !app_assoc. cbn [app].
  destruct (negotiateOption _ _ _) as [[w' [err|]]|x]; reflexivity.
Qed.

Lemma lone_SE_ends_the_block_witness :
  processCommands connected
    ([IAC; SB] ++ escapeIAC [TerminalType] ++ [IAC; SEND] ++ [65; 66] ++ [SE])
    [] quiet
  = Returned None connected []
      (note_handler HTerminalType [IAC; SB; TerminalType; IAC; SEND; 65; 66; SE]
         (note_dispatch [IAC; SB; TerminalType; IAC; SEND; 65; 66; SE] quiet)).
Proof.
  apply (lone_SE_ends_the_block connected [TerminalType] [65; 66] [] SEND quiet);
    [reflexivity | discriminate | discriminate | repeat constructor; discriminate].
Defined.

(** ** What processing can change *)

Lemma grows_refl (w : World) : grows w w.
Proof.
  repeat split; try (exists []; by rewrite ?app_nil_r).
Qed.

Lemma grows_trans (w1 w2 w3 : World) : grows w1 w2 -> grows w2 w3 -> grows w1 w3.
Proof.
  intros ((ws & Hw & Hs) & (hs & Hh) & (ds & Hd) & ? & ? & ? & ?)
         ((ws' & Hw' & Hs') & (hs' & Hh') & (ds' & Hd') & ? & ? & ? & ?).
  repeat split; try congruence.
  - exists (ws ++ ws'). split.
    + by rewrite Hw', Hw, app_assoc.
    + rewrite Hs', Hs, drop_drop, length_app. reflexivity.
  - exists (hs ++ hs'). by rewrite Hh', Hh, app_assoc.
  - exists (ds ++ ds'). by rewrite Hd', Hd, app_assoc.
Qed.

Lemma grows_conn_Write (w : World) (b : list Z) : grows w (fst (conn_Write w b)).
Proof.
  repeat split; try (exists []; by rewrite ?app_nil_r).
  exists [b]. split; [reflexivity|]. cbn. by destruct (wscript w).
Qed.

Lemma grows_note_dispatch (data : list Z) (w : World) : grows w (note_dispatch data w).
Proof.
  repeat split; try (exists []; by rewrite ?app_nil_r). by exists [data].
Qed.

Lemma grows_note_handler (h : telnetOptionHandler) (data : list Z) (w : World) :
  grows w (note_handler h data w).
Proof.
  repeat split; try (exists []; by rewrite ?app_nil_r). by exists [(h, data)].
Qed.

Lemma grows_sendSB (p : Connection) (code op : Z) (data : list Z) (w : World) :
  grows w (fst (sendSB p code op data w)).
Proof.
  unfold sendSB, Write. cbn [fst].
  destruct (state p); try apply grows_conn_Write. apply grows_refl.
Qed.

Lemma grows_handlerFunc (h : telnetOptionHandler) (p : Connection)
    (data : list Z) (w w' : World) (err : option error) :
  handlerFunc h p data w = Ok (w', err) -> grows w w'.
Proof.
  assert (Hsend : forall c o d, sendSB p c o d w = (w', err) -> grows w w').
  { intros c o d E. pose proof (grows_sendSB p c o d w) as H. by rewrite E in H. }
  destruct h;
    unfold handlerFunc, terminalTypeOptionHandler,
      negotiateAboutWindowSizeOptionHandler, terminalSpeedOptionHandler, index.
  - destruct (data !! 3%nat) as [op|]; [rewrite bind_Ok|discriminate].
    destruct (op =? SEND); [destruct (TERM w)|]; intros E%Ok_inj; eauto.
    all: simplify_eq; apply grows_refl.
  - intros E%Ok_inj; eauto.
  - destruct (data !! 3%nat) as [op|]; [rewrite bind_Ok|discriminate].
    destruct (op =? SEND); intros E%Ok_inj; eauto.
    simplify_eq; apply grows_refl.
Qed.

Lemma grows_callHandler (h : telnetOptionHandler) (p : Connection)
    (data : list Z) (w w' : World) (err : option error) :
  callHandler h p data w = Ok (w', err) -> grows w w'.
Proof.
  unfold callHandler. intros E%grows_handlerFunc.
  eapply grows_trans; [apply grows_note_handler | exact E].
Qed.

Lemma grows_negotiateOption (p : Connection) (data : list Z) (w w' : World)
    (err : option error) :
  negotiateOption p data w = Ok (w', err) -> grows w w'.
Proof.
  unfold negotiateOption, index.
  destruct (data !! 1%nat) as [verb|]; [rewrite bind_Ok|discriminate].
  destruct (data !! 2%nat) as [code|]; [rewrite bind_Ok|discriminate].
  cbv zeta. intros E.
  eapply grows_trans; [apply (grows_note_dispatch data)|].
  revert E.
  repeat case_match;
    first
      [ intros E%grows_callHandler;
        first [exact E | eapply grows_trans; [apply grows_conn_Write | exact E]]
      | intros E%Ok_inj; apply (f_equal fst) in E; cbn [fst] in E; subst w';
        first [apply grows_conn_Write | apply grows_refl] ].
Qed.

Lemma appended_trans (n m : nat) (a b c : list Z) :
  appended n a b -> appended m b c -> appended (n + m) a c.
Proof.
  intros (x & -> & Hx) (y & -> & Hy). exists (x ++ y).
  rewrite app_assoc, length_app. split; [reflexivity | lia].
Qed.

Lemma appended_zero (n : nat) (a : list Z) : appended n a a.
Proof. exists []. rewrite app_nil_r. split; [reflexivity | cbn; lia]. Qed.

Lemma appended_one (a : list Z) (b : Z) : appended 1 a (a ++ [b]).
Proof. exists [b]. split; [reflexivity | cbn; lia]. Qed.

Lemma processByte_invariant (p : Connection) (cb out : list Z) (w : World) (b : Z) :
  stepInvariant 1 p out w (processByte p cb out w b).
Proof.
  unfold processByte, dispatch.
  destruct (state p) eqn:Hs; repeat case_match; simplify_eq; cbn;
    try exact I;
    (split; [first [apply appended_one | apply appended_zero]|]);
    (split; [first [apply grows_refl | eapply grows_negotiateOption; eassumption]|]);
    cbn; rewrite ?Hs; congruence.
Qed.

Lemma processLoop_invariant (bs : list Z) :
  forall (p : Connection) (cb out : list Z) (w : World),
    stepInvariant (length bs) p out w (processLoop bs p cb out w).
Proof.
  induction bs as [|b bs IH]; intros p cb out w; cbn [processLoop length].
  - cbn. split; [apply appended_zero|]. split; [apply grows_refl | auto].
  - pose proof (processByte_invariant p cb out w b) as Hb.
    destruct (processByte p cb out w b) as [p1 cb1 out1 w1|e p1 out1 w1|x].
    + specialize (IH p1 cb1 out1 w1). cbn in Hb.
      destruct Hb as (Ha & Hg & Hr).
      destruct (processLoop bs p1 cb1 out1 w1); cbn in *; try exact I;
        destruct IH as (Ha' & Hg' & Hr');
        (split; [exact (appended_trans 1 _ _ _ _ Ha Ha')|]);
        (split; [eapply grows_trans; eassumption | auto]).
    + cbn in *. destruct Hb as ((more & -> & Hm) & Hg & Hr).
      split; [exists more; split; [reflexivity | lia] | auto].
    + exact I.
Qed.

(** X15.  Whenever [processCommands] returns: the output buffer is the old
    one with at most one byte appended per input byte; the transport log
    and the two traces have only been appended to, one scripted write
    result consumed per write; the pending reads, the closed flag and the
    environment are untouched; the option table and the window-size
    buffer are unchanged; and a connection that was ready is still
    ready. *)
Theorem processCommands_only_appends (p q : Connection) (input out out' : list Z)
    (w w' : World) (err : option error) :
  processCommands p input out w = Returned err q out' w' ->
  (exists more, out' = out ++ more /\ (length more <= length input)%nat)
  /\ grows w w'
  /\ sameConfig p q
  /\ (state p <> stateNotReady -> state q <> stateNotReady).
Proof.
  intros E. pose proof (processCommands_keeps _ _ _ _ _ _ _ _ E) as Hk.
  revert E. unfold processCommands.
  pose proof (processLoop_invariant input p [] out w) as H.
  destruct (processLoop input p [] out w); intros [= <- <- <- <-] || discriminate;
    destruct H as (Ha & Hg & Hr); auto.
Qed.

(** ** A transport that accepts every write *)

Lemma healthy_conn_Write (w : World) (b : list Z) :
  healthy w ->
  snd (snd (conn_Write w b)) = None /\ healthy (fst (conn_Write w b)).
Proof.
  unfold healthy, conn_Write. cbn. intros H.
  destruct (wscript w) as [|r s]; [by split|].
  inversion H; subst. by split.
Qed.

Lemma healthy_note_dispatch (data : list Z) (w : World) :
  healthy w -> healthy (note_dispatch data w).
Proof. done. Qed.

Lemma healthy_note_handler (h : telnetOptionHandler) (data : list Z) (w : World) :
  healthy w -> healthy (note_handler h data w).
Proof. done. Qed.

Lemma healthy_sendSB (p : Connection) (code op : Z) (data : list Z) (w : World) :
  state p <> stateNotReady -> healthy w ->
  snd (sendSB p code op data w) = None /\ healthy (fst (sendSB p code op data w)).
Proof.
  intros Hs Hw. unfold sendSB, Write. cbn [fst snd].
  destruct (state p); try contradiction; by apply healthy_conn_Write.
Qed.

Lemma healthy_handlerFunc (h : telnetOptionHandler) (p : Connection)
    (data : list Z) (w w' : World) (err : option error) :
  state p <> stateNotReady -> healthy w ->
  handlerFunc h p data w = Ok (w', err) -> err = None /\ healthy w'.
Proof.
  intros Hs Hw.
  assert (Hsend : forall c o d, sendSB p c o d w = (w', err) ->
                                err = None /\ healthy w').
  { intros c o d E. pose proof (healthy_sendSB p c o d w Hs Hw) as H.
    by rewrite E in H. }
  destruct h;
    unfold handlerFunc, terminalTypeOptionHandler,
      negotiateAboutWindowSizeOptionHandler, terminalSpeedOptionHandler, index.
  - destruct (data !! 3%nat) as [op|]; [rewrite bind_Ok|discriminate].
    destruct (op =? SEND); [destruct (TERM w)|]; intros E%Ok_inj; eauto.
    all: by simplify_eq.
  - intros E%Ok_inj; eauto.
  - destruct (data !! 3%nat) as [op|]; [rewrite bind_Ok|discriminate].
    destruct (op =? SEND); intros E%Ok_inj; eauto. by simplify_eq.
Qed.

Lemma healthy_negotiateOption (p : Connection) (data : list Z) (w w' : World)
    (err : option error) :
  state p <> stateNotReady -> healthy w ->
  negotiateOption p data w = Ok (w', err) -> err = None /\ healthy w'.
Proof.
  intros Hs Hw. unfold negotiateOption, index.
  destruct (data !! 1%nat) as [verb|]; [rewrite bind_Ok|discriminate].
  destruct (data !! 2%nat) as [code|]; [rewrite bind_Ok|discriminate].
  cbv zeta.
  assert (Hwrite : forall b,
             snd (snd (conn_Write (note_dispatch data w) b)) = None
             /\ healthy (fst (conn_Write (note_dispatch data w) b)))
    by (intros b; by apply healthy_conn_Write).
  repeat case_match;
    first
      [ unfold callHandler; intros E;
        eapply healthy_handlerFunc in E;
        [exact E | exact Hs | first [apply healthy_note_handler, Hwrite
                                    | by apply healthy_note_handler]]
      | intros E%Ok_inj; injection E as <- <-;
        first [split; [reflexivity | apply Hwrite]
              | apply Hwrite
              | by split] ].
Qed.

Lemma processByte_healthy (p : Connection) (cb out : list Z) (w : World) (b : Z) :
  state p <> stateNotReady -> healthy w ->
  stepHealthy (processByte p cb out w b).
Proof.
  intros Hs Hw. unfold processByte, dispatch.
  destruct (state p) eqn:Est; try contradiction;
    repeat case_match; simplify_eq; cbn; try exact I;
    try (split; [rewrite ?Est; discriminate | assumption]);
    match goal with
    | E : negotiateOption ?q _ _ = Ok _ |- _ =>
        apply healthy_negotiateOption in E;
        [destruct E as [E1 E2]; try discriminate E1
        | cbn; rewrite ?Est; discriminate | assumption]
    end;
    (split; [discriminate | assumption]).
Qed.

Lemma processLoop_healthy (bs : list Z) :
  forall (p : Connection) (cb out : list Z) (w : World),
    state p <> stateNotReady -> healthy w ->
    stepHealthy (processLoop bs p cb out w).
Proof.
  induction bs as [|b bs IH]; intros p cb out w Hs Hw; cbn [processLoop].
  - by split.
  - pose proof (processByte_healthy p cb out w b Hs Hw) as Hb.
    destruct (processByte p cb out w b); cbn in Hb; [|done|exact I].
    destruct Hb. by apply IH.
Qed.

(** X14.  On a ready connection and a transport that accepts every write,
    [processCommands] returns no error, whatever the input; the transport
    still accepts every write and the connection is still ready. *)
Theorem no_error_on_a_healthy_transport (p q : Connection)
    (input out out' : list Z) (w w' : World) (err : option error) :
  state p <> stateNotReady -> healthy w ->
  processCommands p input out w = Returned err q out' w' ->
  err = None /\ healthy w' /\ state q <> stateNotReady.
Proof.
  intros Hs Hw. unfold processCommands.
  pose proof (processLoop_healthy input p [] out w Hs Hw) as H.
  destruct (processLoop input p [] out w); cbn in H; [|done|discriminate].
  intros [= <- <- <- <-]. destruct H. by repeat split.
Qed.

(** ** Well-formed streams *)

Lemma callHandler_NAWS_total (p : Connection) (data : list Z) (w : World) :
  exists w' err, callHandler HNegotiateAboutWindowSize p data w = Ok (w', err).
Proof.
  unfold callHandler, handlerFunc, negotiateAboutWindowSizeOptionHandler.
  destruct (sendSB _ _ _ _ _); eauto.
Qed.

(** The engine on a buffer of at least three bytes that, if it is a
    sub-negotiation, has a fourth. *)
Lemma negotiateOption_total (p : Connection) (data : list Z) (w : World) :
  safeTable p -> (3 <= length data)%nat ->
  (data !! 1%nat = Some SB -> (4 <= length data)%nat) ->
  exists w' err, negotiateOption p data w = Ok (w', err).
Proof.
  intros Hsafe H3 H4. unfold negotiateOption, index.
  destruct (lookup_lt_is_Some_2 data 1) as [verb Hv]; [lia|].
  destruct (lookup_lt_is_Some_2 data 2) as [code Hc]; [lia|].
  rewrite Hv, Hc, !bind_Ok. cbv zeta.
  destruct (options p !! code) as [o|] eqn:Ho.
  - destruct (verb =? DO).
    + destruct (Hsafe code o Ho) as [-> | ->]; [eauto|].
      apply callHandler_NAWS_total.
    + destruct (verb =? WILL); [eauto|].
      destruct (Z.eqb_spec verb SB) as [->|_]; [|eauto].
      destruct (sbHandler o) as [h|]; [|eauto].
      destruct (lookup_lt_is_Some_2 data 3) as [b3 Hb3]; [specialize (H4 Hv); lia|].
      eapply callHandler_total. exact Hb3.
  - repeat case_match; eauto.
Qed.

Lemma subnegotiation_length (body : list Z) : (4 <= length (subnegotiation body))%nat.
Proof. unfold subnegotiation. rewrite !length_app. cbn. lia. Qed.

Lemma negotiation_buffer_ok (cb : list Z) (verb X : Z) :
  isVerb verb = true ->
  (3 <= length (cb ++ [IAC; verb; X]))%nat
  /\ ((cb ++ [IAC; verb; X]) !! 1%nat = Some SB ->
      (4 <= length (cb ++ [IAC; verb; X]))%nat).
Proof.
  intros Hv. rewrite length_app. cbn [length]. split; [lia|].
  destruct cb as [|c [|c' cb]]; cbn.
  - intros [= ->]. discriminate Hv.
  - intros E. discriminate E.
  - lia.
Qed.

Lemma processLoop_stream (ts : list token) :
  Forall wellFormed ts ->
  forall (p : Connection) (cb out : list Z) (w : World),
    state p = stateData -> safeTable p ->
    streamOutcome p out (flat_map dataOf ts)
      (processLoop (flat_map wire ts) p cb out w).
Proof.
  induction 1 as [|t ts Ht _ IH]; intros p cb out w Hs Hsafe; cbn [flat_map].
  - cbn. by rewrite app_nil_r.
  - assert (Hsafe' : forall s, safeTable (with_state s p)) by (intros s; exact Hsafe).
    destruct t as [b|verb X|body]; cbn [wire dataOf].
    + unfold escapeIAC. cbn [flat_map]. rewrite app_nil_r.
      destruct (Z.eqb_spec b IAC) as [->|Hb].
      * change ([IAC; IAC] ++ flat_map wire ts) with (IAC :: IAC :: flat_map wire ts).
        rewrite processLoop_escape by assumption.
        specialize (IH p (cb ++ [IAC; IAC]) (out ++ [IAC]) w Hs Hsafe).
        destruct (processLoop _ _ _ _ _); cbn in *; [|  |done].
        -- destruct IH as [-> ->]. by rewrite <- app_assoc.
        -- destruct IH as (pre & -> & Hpre). exists (IAC :: pre).
           rewrite <- app_assoc. split; [reflexivity|]. by apply prefix_cons.
      * cbn [app processLoop]. rewrite processByte_Data_plain by assumption.
        specialize (IH p cb (out ++ [b]) w Hs Hsafe).
        destruct (processLoop _ _ _ _ _); cbn in *; [| |done].
        -- destruct IH as [-> ->]. by rewrite <- app_assoc.
        -- destruct IH as (pre & -> & Hpre). exists (b :: pre).
           rewrite <- app_assoc. split; [reflexivity|]. by apply prefix_cons.
    + destruct Ht as [Hv HX].
      rewrite processLoop_negotiation by assumption.
      destruct (negotiation_buffer_ok cb verb X Hv) as [H3 H4].
      destruct (negotiateOption_total (with_state stateInIAC p)
                  (cb ++ [IAC; verb; X]) w (Hsafe' _) H3 H4) as (w' & err & ->).
      destruct err as [e|].
      * cbn. exists []. rewrite app_nil_r. split; [reflexivity | apply prefix_nil].
      * apply IH; assumption.
    + rewrite processLoop_subnegotiation by assumption.
      assert (H4 : (4 <= length (cb ++ subnegotiation body))%nat)
        by (rewrite length_app; pose proof (subnegotiation_length body); lia).
      destruct (negotiateOption_total (with_state stateEscIAC p)
                  (cb ++ subnegotiation body) w (Hsafe' _) ltac:(lia) (fun _ => H4))
        as (w' & err & ->).
      destruct err as [e|].
      * cbn. exists []. rewrite app_nil_r. split; [reflexivity | apply prefix_nil].
      * apply IH; assumption.
Qed.

(** X13.  A stream of data bytes (255 doubled), negotiation commands
    IAC verb X with X outside 250..255, and sub-negotiation blocks,
    processed from the Data state under a table whose post-acceptance
    handlers are the window-size handler or none: processing never
    panics; the output is the old output followed by a prefix of the data
    bytes, in order; when no error is returned all data bytes have been
    delivered and the connection is back in the Data state; and on a
    transport that accepts every write no error is returned. *)
Theorem well_formed_stream (p : Connection) (ts : list token) (out : list Z)
    (w : World) :
  state p = stateData -> safeTable p -> Forall wellFormed ts ->
  exists (err : option error) (q : Connection) (out' : list Z) (w' : World),
    processCommands p (flat_map wire ts) out w = Returned err q out' w'
    /\ (err = None -> q = p /\ out' = out ++ flat_map dataOf ts)
    /\ (exists pre, out' = out ++ pre /\ pre `prefix_of` flat_map dataOf ts)
    /\ (healthy w -> err = None).
Proof.
  intros Hs Hsafe Hwf. unfold processCommands.
  pose proof (processLoop_stream ts Hwf p [] out w Hs Hsafe) as H.
  assert (Hready : state p <> stateNotReady) by (rewrite Hs; discriminate).
  pose proof (fun Hw => processLoop_healthy (flat_map wire ts) p [] out w Hready Hw)
    as Hh.
  destruct (processLoop (flat_map wire ts) p [] out w) as [q cb out' w'|e q out' w'|x];
    cbn in H, Hh; [| |done].
  - destruct H as [-> ->]. do 4 eexists. split; [reflexivity|].
    split; [done|]. split; [|done]. eexists. split; [reflexivity | done].
  - do 4 eexists. split; [reflexivity|]. split; [discriminate|].
    split; [exact H|]. intros Hw. destruct (Hh Hw).
Qed.

Lemma connected_safeTable : safeTable connected.
Proof.
  intros X o. rewrite connected_lookup. unfold defaultEntry, plainOption.
  repeat case_match; intros [= <-]; cbn; auto.
Qed.

Lemma quiet_healthy : healthy quiet.
Proof. constructor. Qed.

Lemma well_formed_stream_witness :
  exists (err : option error) (q : Connection) (out' : list Z) (w' : World),
    processCommands connected
      (flat_map wire [TByte 72; TNegotiation DO NegotiateAboutWindowSize;
                      TByte 255; TSubnegotiation [TerminalType; SEND]; TByte 105])
      [] quiet
    = Returned err q out' w'
    /\ (err = None ->
        q = connected
        /\ out' = [] ++ flat_map dataOf
                          [TByte 72; TNegotiation DO NegotiateAboutWindowSize;
                           TByte 255; TSubnegotiation [TerminalType; SEND];
                           TByte 105])
    /\ (exists pre,
           out' = [] ++ pre
           /\ pre `prefix_of`
                flat_map dataOf
                  [TByte 72; TNegotiation DO NegotiateAboutWindowSize;
                   TByte 255; TSubnegotiation [TerminalType; SEND]; TByte 105])
    /\ (healthy quiet -> err = None).
Proof.
  apply (well_formed_stream connected
           [TByte 72; TNegotiation DO NegotiateAboutWindowSize;
            TByte 255; TSubnegotiation [TerminalType; SEND]; TByte 105] [] quiet).
  - reflexivity.
  - exact connected_safeTable.
  - repeat constructor.
Defined.

(** ** Chunks *)

(** X16.  When the loop ends a chunk l1 with an empty command buffer
    (no command pending), processing l1 and then l2 in two calls gives the
    same result as processing l1 ++ l2 in one call. *)
Theorem chunks_compose (p p1 : Connection) (l1 l2 out out1 : list Z) (w w1 : World) :
  processLoop l1 p [] out w = Running p1 [] out1 w1 ->
  processCommands p l1 out w = Returned None p1 out1 w1
  /\ processCommands p (l1 ++ l2) out w = processCommands p1 l2 out1 w1.
Proof.
  intros E. unfold processCommands. rewrite processLoop_app, E. by split.
Qed.

Lemma chunks_compose_witness :
  processCommands connected [72; IAC; WONT; Echo] [] quiet
  = Returned None connected [72] (note_dispatch [IAC; WONT; Echo] quiet)
  /\ processCommands connected ([72; IAC; WONT; Echo] ++ [IAC; DO; Echo]) [] quiet
     = processCommands connected [IAC; DO; Echo] [72]
         (note_dispatch [IAC; WONT; Echo] quiet).
Proof.
  apply (chunks_compose connected connected [72; IAC; WONT; Echo] [IAC; DO; Echo]
           [] [72] quiet (note_dispatch [IAC; WONT; Echo] quiet)).
  reflexivity.
Defined.

(** ** The window-size frame at the other end *)

Lemma escapeIAC_plain (l : list Z) :
  Forall (fun b => b <> IAC) l -> escapeIAC l = l.
Proof.
  induction 1 as [|b l Hb _ IH]; [reflexivity|].
  unfold escapeIAC in *. cbn [flat_map]. rewrite (neq_eqb _ _ Hb), IH. reflexivity.
Qed.

(** X19.  When none of the four stored size bytes is 255, the frame
    [SetWindowSize] sends on a ready connection is a well-formed
    sub-negotiation block for option 31 with these bytes as body, and this
    package's demultiplexer, in the Data state at the start of a chunk,
    reads it back as one block: no plain data, the frame dispatched
    once. *)
Theorem window_size_frame_is_read_back (p q : Connection) (width height : Z)
    (w wq : World) (out : list Z) :
  state p <> stateNotReady -> state q = stateData ->
  Forall (fun b => b <> IAC) (sizeBytes width height) ->
  exists (frame : list Z) (p' : Connection) (w' : World),
    SetWindowSize p width height w = Ok (p', w')
    /\ written w' = written w ++ [frame]
    /\ frame = subnegotiation (NegotiateAboutWindowSize :: sizeBytes width height)
    /\ exists err q' wq',
         processCommands q frame out wq = Returned err q' out wq'
         /\ dispatched wq' = dispatched wq ++ [frame].
Proof.
  intros Hp Hq Hplain. rewrite SetWindowSize_eq. cbv zeta.
  do 3 eexists. split; [reflexivity|].
  split; [by apply sendSB_NAWS_ready|].
  assert (Hframe : [IAC; SB; NegotiateAboutWindowSize] ++ sizeBytes width height
                   ++ [IAC; SE]
                   = subnegotiation (NegotiateAboutWindowSize :: sizeBytes width height)).
  { unfold subnegotiation.
    rewrite (escapeIAC_plain (NegotiateAboutWindowSize :: sizeBytes width height)).
    - reflexivity.
    - constructor; [discriminate | assumption]. }
  split; [exact Hframe|].
  rewrite Hframe.
  set (body := NegotiateAboutWindowSize :: sizeBytes width height).
  rewrite processCommands_subnegotiation by assumption.
  destruct (subnegotiation_index body) as (H1 & H2 & b3 & H3).
  destruct (negotiateOption_total_SB (with_state stateEscIAC q) (subnegotiation body)
              wq b3 H1 H3) as (wq' & err & E).
  rewrite E. pose proof (negotiateOption_dispatched _ _ _ _ _ E) as Hd.
  destruct err; do 3 eexists; split; try reflexivity; exact Hd.
Qed.

Lemma AddOption_commute_witness :
  AddOption (AddOption connected 88 true true None None) 89 false false None None
  = AddOption (AddOption connected 89 false false None None) 88 true true None None.
Proof. apply (AddOption_commute connected 88 89). lia. Defined.

Lemma terminal_queries_witness :
  exists q w',
    processCommands connected (subnegotiation [TerminalType; SEND]) []
      (with_TERM (Some [120; 116; 101; 114; 109]) quiet)
    = Returned (nextWriteError (with_TERM (Some [120; 116; 101; 114; 109]) quiet))
        q [] w'
    /\ written w'
       = written (with_TERM (Some [120; 116; 101; 114; 109]) quiet)
         ++ [[IAC; SB; TerminalType; IS] ++ [120; 116; 101; 114; 109] ++ [IAC; SE]].
Proof.
  destruct (terminal_queries connected TerminalType
              {| weWill := true; peerDo := true;
                 sbHandler := Some HTerminalType; doHandler := None |}
              [] [] (with_TERM (Some [120; 116; 101; 114; 109]) quiet)) as [H _];
    [reflexivity | discriminate | reflexivity |].
  apply H. reflexivity.
Defined.

Lemma other_operations_get_no_answer_witness :
  exists w',
    processCommands connected (subnegotiation [TerminalSpeed; IS; 57; 54]) [] quiet
    = Returned None connected [] w'
    /\ written w' = written quiet.
Proof.
  apply (other_operations_get_no_answer connected TerminalSpeed IS
           {| weWill := true; peerDo := true;
              sbHandler := Some HTerminalSpeed; doHandler := None |} [57; 54] [] quiet);
    [reflexivity | discriminate | discriminate | reflexivity | by right].
Defined.

Lemma processCommands_only_appends_witness :
  (exists more, [7; 72] = [7] ++ more
                /\ (length more <= 4)%nat)
  /\ grows quiet (fst (conn_Write (note_dispatch [IAC; DO; Echo] quiet) [IAC; WONT; Echo]))
  /\ sameConfig connected connected
  /\ (state connected <> stateNotReady -> state connected <> stateNotReady).
Proof.
  apply (processCommands_only_appends connected connected [72; IAC; DO; Echo]
           [7] [7; 72] quiet
           (fst (conn_Write (note_dispatch [IAC; DO; Echo] quiet) [IAC; WONT; Echo]))
           None).
  reflexivity.
Defined.

Lemma no_error_on_a_healthy_transport_witness :
  @None error = None
  /\ healthy (fst (conn_Write (note_dispatch [IAC; DO; Echo] quiet) [IAC; WONT; Echo]))
  /\ state connected <> stateNotReady.
Proof.
  apply (no_error_on_a_healthy_transport connected connected [72; IAC; DO; Echo]
           [7] [7; 72] quiet
           (fst (conn_Write (note_dispatch [IAC; DO; Echo] quiet) [IAC; WONT; Echo]))
           None).
  - discriminate.
  - constructor.
  - reflexivity.
Defined.

Lemma window_size_frame_is_read_back_witness :
  exists (frame : list Z) (p' : Connection) (w' : World),
    SetWindowSize connected 80 24 quiet = Ok (p', w')
    /\ written w' = written quiet ++ [frame]
    /\ frame = subnegotiation (NegotiateAboutWindowSize :: sizeBytes 80 24)
    /\ exists err q' wq',
         processCommands connected frame [] quiet = Returned err q' [] wq'
         /\ dispatched wq' = dispatched quiet ++ [frame].
Proof.
  apply (window_size_frame_is_read_back connected connected 80 24 quiet quiet []).
  - discriminate.
  - reflexivity.
  - repeat constructor; discriminate.
Defined.

(** A width of 255: the frame carries the byte 255 undoubled, and the
    receiving demultiplexer is still inside the block after the frame. *)
Example window_size_255_is_not_read_back :
  exists w',
    SetWindowSize connected 255 24 quiet
    = Ok (with_winSize [0; 255; 0; 24] connected, w')
    /\ written w' = [[IAC; SB; 31; 0; 255; 0; 24; IAC; SE]]
    /\ processCommands connected [IAC; SB; 31; 0; 255; 0; 24; IAC; SE] [] quiet
       = Returned None (with_state stateInSB connected) [] quiet.
Proof. eexists. repeat split. Qed.

Lemma escaped_data_decodes_witness :
  processCommands connected (escapeIAC [72; 255; 105]) [] quiet
  = Returned None connected ([] ++ [72; 255; 105]) quiet.
Proof.
  apply (escaped_data_decodes connected [72; 255; 105] [] quiet). reflexivity.
Defined.
